(** * telegram_chats_parser: archive store, fetch engine, orchestrator, merge job

    A shallow embedding of [app_src/get_messages_from_chats.py] and
    [app_src/merge_json.py], followed by the properties of the specification
    that were checked against it.

    Conventions.
    - A Python [str] is the list of its code points ([pystr]); strings are
      taken to be text that a UTF-8 file can hold, as the strings read from
      one are.  JSON numbers are integers.
    - A [datetime] that carries a time zone is the instant it denotes, in
      seconds ([Z]); comparing two aware datetimes compares their instants.
    - The calls into [datetime]/[pytz] ([strptime], [strftime], [localize],
      [astimezone]) are the fields of the interface [TimeLib]; the
      development is parametric in it, and [FixedMoscow] is one executable
      instance (civil time at UTC+3) used to run the model.
    - A file is its text together with what [json.load] makes of it
      ([file]); [json.dump(v, f, ensure_ascii=False, indent=2)] writes
      [write_json v], whose lines are produced by [dump_lines].
    - The file system is a map from path names to files.  Directories are
      not part of it: [os.makedirs] succeeds on every name but the empty
      one, on which it raises, and a path whose last component is empty,
      [.] or [..] names a directory, on which [open] raises.
    - Sleeping and logging are recorded, in order, as [event]s. *)

From Stdlib Require Import ZArith NArith Lia List Bool Ascii String DecimalString.
From Stdlib Require Import Permutation Sorted.
From stdpp Require Import base option list gmap.
Import ListNotations.

Set Default Proof Using "Type".
Set Warnings "-register-all".


(** ** Python strings *)

Definition pystr := list N.

(** A literal: the code points of an ASCII string. *)
Definition py (s : string) : pystr :=
  map N_of_ascii (list_ascii_of_string s).

(** [str.isspace] on one character (CPython's [Py_UNICODE_ISSPACE]): this is
    the set [str.strip()] removes. *)
Definition isspace (c : N) : bool :=
  ((9 <=? c) && (c <=? 13) || (28 <=? c) && (c <=? 32)
   || (c =? 133) || (c =? 160) || (c =? 5760)
   || (8192 <=? c) && (c <=? 8202)
   || (c =? 8232) || (c =? 8233) || (c =? 8239) || (c =? 8287)
   || (c =? 12288))%N.

Fixpoint lstrip_by (p : N -> bool) (s : pystr) : pystr :=
  match s with
  | [] => []
  | c :: s' => if p c then lstrip_by p s' else s
  end.

Definition rstrip_by (p : N -> bool) (s : pystr) : pystr :=
  rev (lstrip_by p (rev s)).

(** [s.strip()], [s.rstrip()] and [s.rstrip(chars)] for a one-character set. *)
Definition strip (s : pystr) : pystr := rstrip_by isspace (lstrip_by isspace s).
Definition rstrip (s : pystr) : pystr := rstrip_by isspace s.
Definition rstrip_char (ch : N) (s : pystr) : pystr := rstrip_by (N.eqb ch) s.

(** [s.replace(a, b)] for single characters [a] and [b]. *)
Definition replace_char (a b : N) (s : pystr) : pystr :=
  map (fun c => if (c =? a)%N then b else c) s.

Fixpoint startswith (prefix s : pystr) : bool :=
  match prefix, s with
  | [], _ => true
  | _ :: _, [] => false
  | a :: prefix', c :: s' => (a =? c)%N && startswith prefix' s'
  end.

Definition endswith (suffix s : pystr) : bool :=
  startswith (rev suffix) (rev s).

(** ** Paths *)

Fixpoint take_until (p : N -> bool) (s : pystr) : pystr :=
  match s with
  | [] => []
  | c :: s' => if p c then [] else c :: take_until p s'
  end.

Fixpoint drop_until (p : N -> bool) (s : pystr) : pystr :=
  match s with
  | [] => []
  | c :: s' => if p c then s else drop_until p s'
  end.

Definition slash : N := 47%N.

(** [os.path.basename]: what follows the last slash. *)
Definition basename (p : pystr) : pystr :=
  rev (take_until (N.eqb slash) (rev p)).

(** [os.path.dirname]: the path up to its last slash, without the slashes
    it ends in unless it is made of slashes only; empty when the path has
    no slash. *)
Definition dirname (p : pystr) : pystr :=
  let head := rev (drop_until (N.eqb slash) (rev p)) in
  if forallb (N.eqb slash) head then head else rstrip_char slash head.

(** [os.makedirs(name, exist_ok=True)].  The directories are not part of
    the file system modelled and creating them is taken to succeed; for
    the empty name [os.makedirs] raises [FileNotFoundError] whatever the
    file system holds.  [None] when it raises. *)
Definition makedirs (name : pystr) : option unit :=
  if bool_decide (name = []) then None else Some ().

(** A path whose last component is empty, [.] or [..] names a directory
    once its directory part exists: [open] on it raises
    [IsADirectoryError], for reading as for writing. *)
Definition names_directory (p : pystr) : bool :=
  bool_decide (basename p ∈ [[]; py "."; py ".."]).

(** ** [sanitize_filename] and [get_chat_file_path] *)

(** The character class of the regular expression: backslash, slash, star,
    question mark, colon, double quote, less-than, greater-than, bar. *)
Definition invalid_chars : list N :=
  [92; 47; 42; 63; 58; 34; 60; 62; 124]%N.

Definition is_invalid_char (c : N) : bool :=
  existsb (N.eqb c) invalid_chars.

Definition underscore : N := 95%N.
Definition dot : N := 46%N.
Definition space : N := 32%N.

(** [re.sub(class, '_', name)]: every character of the class becomes '_'. *)
Definition re_sub_invalid (name : pystr) : pystr :=
  map (fun c => if is_invalid_char c then underscore else c) name.

Definition sanitize_filename (name : pystr) : pystr :=
  let name := re_sub_invalid name in
  let name := rstrip_char dot (strip name) in
  name.

Section Paths.

(** [config.ROOT_MESSAGES_DIR] *)
Variable ROOT_MESSAGES_DIR : pystr.

Definition get_chat_file_path (category chat_title : pystr) : pystr :=
  let sanitized_title := sanitize_filename (replace_char space underscore chat_title) in
  ROOT_MESSAGES_DIR ++ py "/" ++ category ++ py "/" ++ sanitized_title ++ py ".json".

End Paths.

(** ** JSON values and [json.dump(..., ensure_ascii=False, indent=2)] *)

(** What [json.load] returns.  Numbers are integers (the only numbers the
    program writes); an object is the list of its members in order. *)
Inductive json :=
| JNull
| JBool (b : bool)
| JInt (z : Z)
| JStr (s : pystr)
| JArr (items : list json)
| JObj (members : list (pystr * json)).

(** Python truth value of a decoded JSON value. *)
Definition truthy (v : json) : bool :=
  match v with
  | JNull => false
  | JBool b => b
  | JInt z => negb (z =? 0)%Z
  | JStr s => negb (bool_decide (s = []))
  | JArr l => negb (bool_decide (l = []))
  | JObj f => negb (bool_decide (f = []))
  end.

(** [d.get(key)] / [d[key]] on a [dict]: [None] when the key is missing. *)
Fixpoint dict_get (key : pystr) (members : list (pystr * json)) : option json :=
  match members with
  | [] => None
  | (k, v) :: rest => if bool_decide (k = key) then Some v else dict_get key rest
  end.

Definition hex_digit (n : N) : N :=
  (if n <? 10 then 48 + n else 87 + n)%N.

(** One character of a string literal, as [json.encoder.encode_basestring]
    writes it: quote, backslash and the control characters are escaped,
    everything else is copied ([ensure_ascii=False]). *)
Definition escape_char (c : N) : pystr :=
  if (c =? 34)%N then py "\" ++ [34%N]
  else if (c =? 92)%N then py "\\"
  else if (c =? 10)%N then py "\n"
  else if (c =? 13)%N then py "\r"
  else if (c =? 9)%N then py "\t"
  else if (c =? 8)%N then py "\b"
  else if (c =? 12)%N then py "\f"
  else if (c <? 32)%N then py "\u00" ++ [hex_digit (c / 16); hex_digit (c mod 16)]
  else [c].

Definition encode_basestring (s : pystr) : pystr :=
  [34%N] ++ flat_map escape_char s ++ [34%N].

Definition repr_int (z : Z) : pystr :=
  py (NilZero.string_of_int (Z.to_int z)).

Definition indent_of (level : nat) : pystr := repeat space (2 * level).

Definition on_first (f : pystr -> pystr) (ls : list pystr) : list pystr :=
  match ls with
  | [] => []
  | l :: rest => f l :: rest
  end.

Fixpoint on_last (f : pystr -> pystr) (ls : list pystr) : list pystr :=
  match ls with
  | [] => []
  | [l] => [f l]
  | l :: rest => l :: on_last f rest
  end.

(** The renderings of the items of an array (or the members of an object),
    one after the other, each but the last followed by a comma. *)
Fixpoint join_items (rendered : list (list pystr)) : list pystr :=
  match rendered with
  | [] => []
  | ls :: rest =>
      match rest with
      | [] => ls
      | _ :: _ => on_last (fun s => s ++ py ",") ls ++ join_items rest
      end
  end.

(** The lines of the rendering of [v] at nesting depth [level].  The first
    line continues the line the value starts on; every further line is a
    whole line of the output.  Line terminators are not kept. *)
Fixpoint dump_at (level : nat) (v : json) : list pystr :=
  match v with
  | JNull => [py "null"]
  | JBool true => [py "true"]
  | JBool false => [py "false"]
  | JInt z => [repr_int z]
  | JStr s => [encode_basestring s]
  | JArr [] => [py "[]"]
  | JArr items =>
      py "[" ::
      join_items
        (map (fun x => on_first (app (indent_of (S level))) (dump_at (S level) x))
             items)
      ++ [indent_of level ++ py "]"]
  | JObj [] => [py "{}"]
  | JObj members =>
      py "{" ::
      join_items
        (map (fun kx : pystr * json =>
                on_first (app (indent_of (S level) ++ encode_basestring kx.1 ++ py ": "))
                         (dump_at (S level) kx.2))
             members)
      ++ [indent_of level ++ py "}"]
  end.

Definition dump_lines (v : json) : list pystr := dump_at 0 v.

(** ** Files *)

(** A file is either text, given by its lines as [readline] returns them
    and by the value [json.load] decodes from it ([None] when it raises
    [JSONDecodeError]), or bytes that are not UTF-8, on which reading raises
    [UnicodeDecodeError]. *)
Inductive file :=
| Text (lines : list pystr) (value : option json)
| Binary.

(** The file [json.dump(v, f, ensure_ascii=False, indent=2)] leaves. *)
Definition write_json (v : json) : file := Text (dump_lines v) (Some v).

(** ** Effects: sleeping and logging *)

Inductive event :=
| Sleep (seconds : Z)                        (* asyncio.sleep(seconds) *)
| RandomDelay                                (* asyncio.sleep(max(0.1, delay)), delay random *)
| LogError (origin : string) (subject : pystr)
| LogInfo (origin : string) (subject : pystr).

(** ** Time *)

(** The calls into [datetime] and [pytz].  [strptime] and [strftime] are
    for the format [%d-%m-%Y %H:%M:%S]; [strptime] is [None] when Python
    raises [ValueError]. *)
Class TimeLib := {
  naive : Type;
  strptime : pystr -> option naive;
  strftime : naive -> pystr;
  moscow_localize : naive -> Z;       (* MOSCOW_TZ.localize(naive_dt) *)
  astimezone_moscow : Z -> naive;     (* dt.astimezone(MOSCOW_TZ), wall clock *)
}.

Section Time.
Context `{TimeLib}.

(** The dates handled are the aware datetimes Telethon delivers, so only
    the [else] branch of the source is live; both branches denote the same
    instant for a naive UTC value. *)
Definition format_moscow_time (dt : Z) : pystr :=
  strftime (astimezone_moscow dt).

Definition parse_moscow_time (time_str : pystr) : option Z :=
  naive_dt ← strptime time_str;
  Some (moscow_localize naive_dt).

End Time.

(** ** Message records and source messages *)

(** The dict built in [parse_messages] for one message. *)
Record record := {
  date : pystr;
  sender_id : option Z;
  sender_username : option pystr;
  text : pystr;
}.

Definition json_of_option {A} (f : A -> json) (o : option A) : json :=
  match o with
  | Some a => f a
  | None => JNull
  end.

(** The record as the JSON object [json.dump] sees, keys in insertion order. *)
Definition record_json (r : record) : json :=
  JObj [ (py "date", JStr (date r));
         (py "sender_id", json_of_option JInt (sender_id r));
         (py "sender_username", json_of_option JStr (sender_username r));
         (py "text", JStr (text r)) ].

(** [message.sender]: an entity with an [id] and perhaps a [username]. *)
Record sender := {
  id : Z;
  username : option pystr;
}.

(** A message of the source.  [msg_date] is [None] for an object without a
    [date] attribute, [msg_sender] and [msg_text] are [None] where Telethon
    gives [None]. *)
Record message := {
  msg_date : option Z;
  msg_sender : option sender;
  msg_text : option pystr;
}.

(** One call of [client.iter_messages]: the clock when [parse_messages]
    starts (as the start of the current day) and the items the iterator
    yields, newest first; an item is [None] for a falsy object. *)
Record stream := {
  today_start : Z;
  items : list (option message);
}.

(** What the outside world does over one call of [parse_messages] and the
    calls it makes to itself: the iterator either ends (normally, or with an
    exception other than [FloodWaitError]), or raises [FloodWaitError] after
    its items, and [next] describes the call that follows the wait. *)
Inductive source :=
| Ends (s : stream) (normally : bool)
| Floods (s : stream) (seconds : Z) (next : source).

Definition source_stream (src : source) : stream :=
  match src with
  | Ends s _ => s
  | Floods s _ _ => s
  end.

(** A value returned, or a [ValueError] raised to the caller. *)
Inductive outcome (A : Type) :=
| Returned (a : A)
| ValueError (msg : string).
Arguments Returned {A} a.
Arguments ValueError {A} msg.

(** ** [MessageParser] *)

Definition request_limit : Z := 5000.

(** [check_request_limit], on the value of [self.request_count]. *)
Definition check_request_limit (request_count : Z) : Z * list event :=
  let request_count := (request_count + 1)%Z in
  if (request_limit <=? request_count)%Z then (0%Z, [Sleep 3])
  else (request_count, []).

Definition random_delay : list event := [RandomDelay].

(** [x or y] on an optional integer. *)
Definition or_default (limit : option Z) (d : Z) : Z :=
  match limit with
  | Some l => if (l =? 0)%Z then d else l
  | None => d
  end.

(** [not limit] *)
Definition limit_missing (limit : option Z) : bool :=
  match limit with
  | Some l => (l =? 0)%Z
  | None => true
  end.

Definition mode_last_saved : pystr := py "last_saved".
Definition mode_today : pystr := py "today".
Definition mode_all : pystr := py "all".
Definition mode_count : pystr := py "count".

(** The state of the loop of [parse_messages] when it is left. *)
Record loop_state := {
  messages_data : list record;
  request_count : Z;
  loop_events : list event;
  broke : bool;          (* left by [break], not by the end of the iterator *)
}.

Abbreviation fs := (gmap pystr file).

Section Engine.
Context `{TimeLib}.
Variable ROOT_MESSAGES_DIR : pystr.

Definition get_last_message_date (files : fs) (file_path : pystr)
  : option Z * list event :=
  let failed := (None, [LogError "get_last_message_date" file_path]) in
  match files !! file_path with
  | None => (None, [])
  | Some Binary => failed
  | Some (Text _ None) => failed
  | Some (Text _ (Some (JArr messages))) =>
      match last messages with
      | None => (None, [])
      | Some (JObj members) =>
          let last_date_str := default (JStr []) (dict_get (py "date") members) in
          if truthy last_date_str then
            match last_date_str with
            | JStr s =>
                match parse_moscow_time s with
                | Some t => (Some t, [])
                | None => failed
                end
            | _ => failed
            end
          else (None, [])
      | Some _ => failed
      end
  | Some (Text _ (Some _)) => (None, [])
  end.

(** The sort key [parse_moscow_time(x['date'])]; [None] when evaluating it
    raises ([KeyError], [TypeError] or [ValueError]). *)
Definition date_key (x : json) : option Z :=
  match x with
  | JObj members =>
      match dict_get (py "date") members with
      | Some (JStr s) => parse_moscow_time s
      | _ => None
      end
  | _ => None
  end.

Fixpoint insert_by_key (kx : Z * json) (l : list (Z * json)) : list (Z * json) :=
  match l with
  | [] => [kx]
  | ky :: l' =>
      if (kx.1 <=? ky.1)%Z then kx :: l else ky :: insert_by_key kx l'
  end.

Definition sort_keyed (l : list (Z * json)) : list (Z * json) :=
  foldr insert_by_key [] l.

Fixpoint with_keys (l : list json) : option (list (Z * json)) :=
  match l with
  | [] => Some []
  | x :: l' =>
      k ← date_key x;
      kl ← with_keys l';
      Some ((k, x) :: kl)
  end.

(** [l.sort(key=lambda x: parse_moscow_time(x['date']))]: the keys are
    computed first, then the list is sorted by them, stably.  [None] when
    a key raises. *)
Definition sort_by_date (l : list json) : option (list json) :=
  kl ← with_keys l;
  Some ((sort_keyed kl).*2).

Definition merge_and_sort_messages (existing_messages new_messages : list json)
  : option (list json) :=
  let combined := existing_messages ++ new_messages in
  sort_by_date combined.

(** [save_messages].  [None] when an exception leaves the function:
    from [os.makedirs] or from the first sort, which are outside the
    [try], or from [open] on a path that names a directory, which raises
    in the [try], in its handler and in the [else] branch alike. *)
Definition save_messages (messages : list json) (file_path : pystr)
    (append : bool) (files : fs) : option (fs * list event) :=
  makedirs (dirname file_path);;
  messages ← (if bool_decide (messages = []) then Some messages
              else sort_by_date messages);
  let overwrite := <[file_path := write_json (JArr messages)]> files in
  let fallback := Some (overwrite, [LogError "save_messages" file_path]) in
  if names_directory file_path then None
  else if append && bool_decide (is_Some (files !! file_path)) then
    match files !! file_path with
    | Some (Text _ value) =>
        let existing_messages := default (JArr []) value in
        match existing_messages with
        | JArr existing_messages =>
            match sort_by_date (existing_messages ++ messages) with
            | Some all_messages =>
                Some (<[file_path := write_json (JArr all_messages)]> files, [])
            | None => fallback
            end
        | _ => fallback
        end
    | _ => fallback
    end
  else Some (overwrite, []).

End Engine.

Section Fetch.
Context `{TimeLib}.
Variable ROOT_MESSAGES_DIR : pystr.

(** The [if mode == ...] chain at the head of [parse_messages]: the resume
    boundary [last_date], the budget [limit] and what was logged on the
    way, or the [ValueError] raised. *)
Definition determine_mode (files : fs) (file_path : pystr) (mode : pystr)
    (limit : option Z) (today_start : Z)
  : outcome (option Z * option Z * list event) :=
  if bool_decide (mode = mode_last_saved) then
    let '(last_date, evs) := get_last_message_date files file_path in
    match last_date with
    | None => Returned (last_date, Some (or_default limit 5000), evs)
    | Some _ => Returned (last_date, limit, evs)
    end
  else if bool_decide (mode = mode_today) then
    let '(last_date, evs) := get_last_message_date files file_path in
    match last_date with
    | Some d =>
        if (today_start <=? d)%Z then Returned (Some d, limit, evs)
        else Returned (Some today_start, limit, evs)
    | None => Returned (Some today_start, limit, evs)
    end
  else if bool_decide (mode = mode_all) then
    Returned (None, limit, [])
  else if bool_decide (mode = mode_count) then
    if limit_missing limit
    then ValueError "For 'count' mode, limit must be specified"
    else
      let '(last_date, evs) := get_last_message_date files file_path in
      Returned (last_date, limit, evs)
  else ValueError "Unknown parsing mode".

(** [last_date and message_date <= last_date] *)
Definition reached_saved (last_date : option Z) (message_date : Z) : bool :=
  match last_date with
  | Some d => (message_date <=? d)%Z
  | None => false
  end.

(** The two [break] tests that come before a message is looked at. *)
Definition stop_before (mode : pystr) (today_start : Z) (last_date : option Z)
    (message_date : Z) : bool :=
  if bool_decide (mode = mode_today) then
    (message_date <? today_start)%Z || reached_saved last_date message_date
  else reached_saved last_date message_date.

(** [limit is not None and message_count >= limit] *)
Definition limit_reached (limit : option Z) (message_count : Z) : bool :=
  match limit with
  | Some l => (l <=? message_count)%Z
  | None => false
  end.

(** The dict [message_data] built for a message that has a sender. *)
Definition message_record (message_date : Z) (s : sender) (m : message) : record :=
  let message_text := default [] (msg_text m) in
  {| date := format_moscow_time message_date;
     sender_id := Some (id s);
     sender_username := username s;
     text := take 500 message_text |}.

(** [message_data["text"] or message_data["sender_id"]] *)
Definition worth_keeping (r : record) : bool :=
  negb (bool_decide (text r = []))
  || match sender_id r with
     | Some i => negb (i =? 0)%Z
     | None => false
     end.

(** The [async for] loop, from the state it has reached: the accumulator
    [messages_data] (newest last in the source, so each record is put in
    front), [self.request_count] and [message_count]. *)
Fixpoint paginate (mode : pystr) (today_start : Z) (last_date limit : option Z)
    (remaining : list (option message))
    (acc : list record) (count : Z) (message_count : Z) : loop_state :=
  match remaining with
  | [] => {| messages_data := acc; request_count := count;
             loop_events := []; broke := false |}
  | message :: remaining' =>
      let '(count, evs) := check_request_limit count in
      let evs := evs ++ random_delay in
      let continue acc message_count :=
        let st := paginate mode today_start last_date limit remaining'
                           acc count message_count in
        {| messages_data := messages_data st; request_count := request_count st;
           loop_events := evs ++ loop_events st; broke := broke st |} in
      let break acc :=
        {| messages_data := acc; request_count := count;
           loop_events := evs; broke := true |} in
      match message with
      | None => continue acc message_count
      | Some m =>
          match msg_date m with
          | None => continue acc message_count
          | Some message_date =>
              if stop_before mode today_start last_date message_date
              then break acc
              else
                match msg_sender m with
                | None => continue acc message_count
                | Some s =>
                    let message_data := message_record message_date s m in
                    let acc :=
                      if worth_keeping message_data then message_data :: acc
                      else acc in
                    let message_count := (message_count + 1)%Z in
                    if limit_reached limit message_count then break acc
                    else continue acc message_count
                end
          end
      end
  end.

(** [parse_messages(client, chat_entity, category, mode, limit)], with the
    file system it reads, the behaviour of the source over the call and
    [self.request_count] made explicit.  [chat_title] is the entity's
    [title] attribute when it has one. *)
Fixpoint parse_messages (files : fs) (src : source)
    (chat_title : option pystr) (category : pystr)
    (mode : pystr) (limit : option Z) (count : Z)
  : outcome (list record) * Z * list event :=
  let title := default (py "chat") chat_title in
  let file_path := get_chat_file_path ROOT_MESSAGES_DIR category title in
  let s := source_stream src in
  match determine_mode files file_path mode limit (today_start s) with
  | ValueError msg => (ValueError msg, count, [])
  | Returned (last_date, limit, evs0) =>
      let st := paginate mode (today_start s) last_date limit (items s) [] count 0 in
      let evs := evs0 ++ loop_events st in
      if broke st then (Returned (messages_data st), request_count st, evs)
      else
        match src with
        | Ends _ true => (Returned (messages_data st), request_count st, evs)
        | Ends _ false =>
            (Returned (messages_data st), request_count st,
             evs ++ [LogError "parse_messages" title])
        | Floods _ seconds next =>
            let '(res, count', evs') :=
              parse_messages files next chat_title category mode limit
                             (request_count st) in
            (res, count', evs ++ [Sleep seconds] ++ evs')
        end
  end.

End Fetch.

(** ** [get_first_message_date] *)

Definition comma : N := 44%N.

Section FirstDate.
Context `{TimeLib}.

(** [json.loads] on the text of one line; [None] when it raises
    [JSONDecodeError]. *)
Variable json_loads : pystr -> option json.

(** The [while True] loop, run for at most [fuel] iterations over the
    lines not read yet.  [readline] returns the empty string once the file
    is exhausted.  [None] means that the loop is still running when the
    fuel is spent. *)
Fixpoint scan_lines (file_path : pystr) (fuel : nat) (unread : list pystr)
  : option (option Z * list event) :=
  match fuel with
  | O => None
  | S fuel' =>
      let line := hd [] unread in
      let unread := tl unread in
      let failed := Some (None, [LogError "get_first_message_date" file_path]) in
      if startswith (py "{") line then
        match json_loads (rstrip_char comma (rstrip line)) with
        | None => scan_lines file_path fuel' unread
        | Some (JObj members) =>
            match dict_get (py "date") members with
            | None => scan_lines file_path fuel' unread
            | Some (JStr s) =>
                match parse_moscow_time s with
                | Some t => Some (Some t, [])
                | None => failed
                end
            | Some _ => failed
            end
        | Some _ => failed
        end
      else scan_lines file_path fuel' unread
  end.

Definition get_first_message_date (fuel : nat) (files : fs) (file_path : pystr)
  : option (option Z * list event) :=
  match files !! file_path with
  | None => Some (None, [])
  | Some Binary => Some (None, [LogError "get_first_message_date" file_path])
  | Some (Text lines _) =>
      let first_line := hd [] lines in
      if startswith (py "[") first_line
      then scan_lines file_path fuel (tl lines)
      else Some (None, [])
  end.

End FirstDate.

(** ** [process_chat_file] *)

(** [client.get_entity(chat_link)]: an entity, with its [title] when it has
    one, or one of the two kinds of failure the caller tells apart. *)
Inductive resolution :=
| Resolved (title : option pystr)
| ChannelPrivateError
| ResolveError.

(** A chat reference together with what the source answers for it. *)
Record chat := {
  chat_link : pystr;
  resolve : resolution;
  chat_source : source;
}.

Record batch_state := {
  b_files : fs;
  b_request_count : Z;
  processed_chats : Z;
  updated_files : Z;
  b_events : list event;
}.

(** [os.path.splitext(p)[0]] for a name without directory part: the last
    dot starts the extension unless only dots come before it. *)
Definition splitext_root (p : pystr) : pystr :=
  match lstrip_by (fun c => negb (c =? dot)%N) (rev p) with
  | [] => p
  | _ :: before =>
      if forallb (N.eqb dot) before then p else rev before
  end.

Section Orchestrator.
Context `{TimeLib}.
Variable ROOT_MESSAGES_DIR : pystr.

Definition log (e : event) (st : batch_state) : batch_state :=
  {| b_files := b_files st; b_request_count := b_request_count st;
     processed_chats := processed_chats st; updated_files := updated_files st;
     b_events := b_events st ++ [e] |}.

(** [mode in ['last_saved', 'today', 'count']] *)
Definition appending_mode (mode : pystr) : bool :=
  bool_decide (mode = mode_last_saved) || bool_decide (mode = mode_today)
  || bool_decide (mode = mode_count).

(** The body of the [for chat_link in chat_links] loop. *)
Definition process_chat (category mode : pystr) (limit : option Z)
    (c : chat) (st : batch_state) : batch_state :=
  let failed := log (LogError "process_chat_file" (chat_link c)) st in
  match resolve c with
  | ChannelPrivateError => failed
  | ResolveError => failed
  | Resolved None => failed
  | Resolved (Some title) =>
      let chat_title := sanitize_filename (replace_char space underscore title) in
      let '(res, count, evs) :=
        parse_messages ROOT_MESSAGES_DIR (b_files st) (chat_source c)
                       (Some title) category mode limit (b_request_count st) in
      match res with
      | ValueError _ =>
          {| b_files := b_files st; b_request_count := count;
             processed_chats := processed_chats st;
             updated_files := updated_files st;
             b_events := b_events st ++ evs
                         ++ [LogError "process_chat_file" (chat_link c)] |}
      | Returned messages =>
          if bool_decide (messages = []) then
            {| b_files := b_files st; b_request_count := count;
               processed_chats := (processed_chats st + 1)%Z;
               updated_files := updated_files st;
               b_events := b_events st ++ evs ++ [Sleep 10] |}
          else
            let file_path := get_chat_file_path ROOT_MESSAGES_DIR category chat_title in
            let append := appending_mode mode
                          && bool_decide (is_Some (b_files st !! file_path)) in
            match save_messages (record_json <$> messages) file_path append (b_files st) with
            | None =>
                {| b_files := b_files st; b_request_count := count;
                   processed_chats := processed_chats st;
                   updated_files := updated_files st;
                   b_events := b_events st ++ evs
                               ++ [LogError "process_chat_file" (chat_link c)] |}
            | Some (files, evs_save) =>
                {| b_files := files; b_request_count := count;
                   processed_chats := (processed_chats st + 1)%Z;
                   updated_files := (updated_files st + 1)%Z;
                   b_events := b_events st ++ evs ++ evs_save
                               ++ [LogInfo "process_chat_file" file_path; Sleep 10] |}
            end
      end
  end.

(** The loop over the chat references of one list file. *)
Definition process_chats (category mode : pystr) (limit : option Z)
    (chats : list chat) (st : batch_state) : batch_state :=
  foldl (fun st c => process_chat category mode limit c st) st chats.

(** [process_chat_file]: [client] answers for each chat reference read
    from the list file.  Returns the two counters with the state left. *)
Definition process_chat_file (client : pystr -> resolution * source)
    (files : fs) (count : Z) (file_path : pystr) (mode : pystr) (limit : option Z)
  : Z * Z * batch_state :=
  let category := splitext_root (basename file_path) in
  let st := {| b_files := files; b_request_count := count;
               processed_chats := 0; updated_files := 0;
               b_events := [LogInfo "process_chat_file" file_path] |} in
  match files !! file_path with
  | Some (Text lines _) =>
      let chat_links :=
        filter (fun l => l ≠ []) (strip <$> lines) in
      let chats :=
        (fun l => {| chat_link := l; resolve := (client l).1;
                     chat_source := (client l).2 |}) <$> chat_links in
      let st := process_chats category mode limit chats st in
      let st := log (LogInfo "process_chat_file" category) st in
      (processed_chats st, updated_files st, st)
  | _ =>
      (0%Z, 0%Z, log (LogError "process_chat_file" file_path) st)
  end.

End Orchestrator.

(** ** [merge_json_files] *)

Definition path_join (dir name : pystr) : pystr := dir ++ py "/" ++ name.

(** One file met by [os.walk(input_dir)]: its directory, its name and its
    content. *)
Record walked := {
  w_root : pystr;
  w_name : pystr;
  w_content : file;
}.

(** The two nested loops over the walk: [all_entries] and what is logged. *)
Fixpoint collect_entries (walk : list walked) : list json * list event :=
  match walk with
  | [] => ([], [])
  | w :: rest =>
      let '(entries, evs) := collect_entries rest in
      if endswith (py ".json") (w_name w) then
        let file_path := path_join (w_root w) (w_name w) in
        match w_content w with
        | Text _ (Some (JArr data)) => (data ++ entries, evs)
        | Text _ (Some _) => (entries, evs)
        | Text _ None => (entries, LogError "merge_json" file_path :: evs)
        | Binary => (entries, LogError "merge_json" file_path :: evs)
        end
      else (entries, evs)
  end.

(** The name the snapshot is written under: [current_date] and
    [current_time] are the two readings of the clock, formatted
    [%d-%m-%Y] and [%H-%M]. *)
Definition snapshot_path (output_dir current_date current_time : pystr)
    (files : fs) : pystr :=
  let base_filename := py "merged-" ++ current_date ++ py ".json" in
  let output_path := path_join output_dir base_filename in
  if bool_decide (is_Some (files !! output_path)) then
    let base_filename :=
      py "merged-" ++ current_date ++ py "-" ++ current_time ++ py ".json" in
    path_join output_dir base_filename
  else output_path.

Definition merge_json_files (walk : list walked) (output_dir : pystr)
    (current_date current_time : pystr) (files : fs) : fs * list event :=
  let '(all_entries, evs) := collect_entries walk in
  let output_path := snapshot_path output_dir current_date current_time files in
  (<[output_path := write_json (JArr all_entries)]> files,
   evs ++ [LogInfo "merge_json" output_path]).

(** ** An executable instance of the time interface

    Civil time at the fixed offset UTC+3 (Moscow since 26-10-2014) in the
    proleptic Gregorian calendar, with the zero-padded text that [strftime]
    prints for [%d-%m-%Y %H:%M:%S]. *)
Module FixedMoscow.

Record civil := {
  c_day : Z; c_month : Z; c_year : Z;
  c_hour : Z; c_minute : Z; c_second : Z;
}.

Local Open Scope Z_scope.

Definition days_from_civil (y m d : Z) : Z :=
  let y := if m <=? 2 then y - 1 else y in
  let era := y / 400 in
  let yoe := y - era * 400 in
  let doy := (153 * (if 2 <? m then m - 3 else m + 9) + 2) / 5 + d - 1 in
  let doe := yoe * 365 + yoe / 4 - yoe / 100 + doy in
  era * 146097 + doe - 719468.

Definition civil_from_days (z : Z) : Z * Z * Z :=
  let z := z + 719468 in
  let era := z / 146097 in
  let doe := z - era * 146097 in
  let yoe := (doe - doe / 1460 + doe / 36524 - doe / 146096) / 365 in
  let doy := doe - (365 * yoe + yoe / 4 - yoe / 100) in
  let mp := (5 * doy + 2) / 153 in
  let d := doy - (153 * mp + 2) / 5 + 1 in
  let m := if mp <? 10 then mp + 3 else mp - 9 in
  ((if m <=? 2 then yoe + era * 400 + 1 else yoe + era * 400), m, d).

Definition is_leap (y : Z) : bool :=
  ((y mod 4 =? 0) && negb (y mod 100 =? 0)) || (y mod 400 =? 0).

Definition days_in_month (y m : Z) : Z :=
  if m =? 2 then (if is_leap y then 29 else 28)
  else if (m =? 4) || (m =? 6) || (m =? 9) || (m =? 11) then 30
  else 31.

Definition utc_offset : Z := 10800.

Definition localize (n : civil) : Z :=
  days_from_civil (c_year n) (c_month n) (c_day n) * 86400
  + c_hour n * 3600 + c_minute n * 60 + c_second n - utc_offset.

Definition to_civil (t : Z) : civil :=
  let local := t + utc_offset in
  let '(y, m, d) := civil_from_days (local / 86400) in
  let sod := local mod 86400 in
  {| c_day := d; c_month := m; c_year := y;
     c_hour := sod / 3600; c_minute := (sod mod 3600) / 60;
     c_second := sod mod 60 |}.

Definition digit_char (n : Z) : N := (48 + Z.to_N n)%N.

Definition two_digits (n : Z) : pystr :=
  [digit_char (n / 10); digit_char (n mod 10)].

Definition four_digits (n : Z) : pystr :=
  [digit_char (n / 1000); digit_char ((n / 100) mod 10);
   digit_char ((n / 10) mod 10); digit_char (n mod 10)].

Definition print (n : civil) : pystr :=
  two_digits (c_day n) ++ py "-" ++ two_digits (c_month n) ++ py "-"
  ++ four_digits (c_year n) ++ py " " ++ two_digits (c_hour n) ++ py ":"
  ++ two_digits (c_minute n) ++ py ":" ++ two_digits (c_second n).

Definition digit_value (c : N) : option Z :=
  if ((48 <=? c) && (c <=? 57))%N then Some (Z.of_N c - 48) else None.

Definition number (cs : list N) : option Z :=
  foldl (fun acc c => a ← acc; v ← digit_value c; Some (10 * a + v)) (Some 0) cs.

Definition scan (s : pystr) : option civil :=
  match s with
  | [d1; d2; s1; m1; m2; s2; y1; y2; y3; y4; s3; h1; h2; s4; i1; i2; s5; e1; e2] =>
      if bool_decide ([s1; s2; s3; s4; s5] = [45; 45; 32; 58; 58]%N) then
        d ← number [d1; d2];
        m ← number [m1; m2];
        y ← number [y1; y2; y3; y4];
        h ← number [h1; h2];
        i ← number [i1; i2];
        e ← number [e1; e2];
        if (1 <=? m) && (m <=? 12) && (1 <=? y) && (1 <=? d)
           && (d <=? days_in_month y m) && (h <=? 23) && (i <=? 59) && (e <=? 59)
        then Some {| c_day := d; c_month := m; c_year := y;
                     c_hour := h; c_minute := i; c_second := e |}
        else None
      else None
  | _ => None
  end.

#[export] Instance time_lib : TimeLib := {|
  naive := civil;
  strptime := scan;
  strftime := print;
  moscow_localize := localize;
  astimezone_moscow := to_civil;
|}.

End FixedMoscow.



(** * Statements and scenarios *)

(** ** The file name derived from a chat title *)

(** What the specification says of a sanitized name: no invalid character,
    no whitespace at either end, no dot at the end. *)
Definition sanitized_as_specified (name : pystr) : Prop :=
  (forall c, c ∈ name -> is_invalid_char c = false)
  /\ (forall c, head name = Some c -> isspace c = false)
  /\ (forall c, last name = Some c -> isspace c = false /\ c <> dot).

(** The title made of the letter a, a tabulation and a dot. *)
Definition title_a_tab_dot : pystr := [97; 9; 46]%N.

(** ** A scenario to run the model on

    One chat, "Daily News" in the category "news", with messages on
    1 January 2024 (Moscow time) and the clock of [FixedMoscow]. *)
Module Scenario.

#[local] Existing Instance FixedMoscow.time_lib.

Definition root : pystr := py "messages".
Definition category : pystr := py "news".
Definition title : pystr := py "Daily News".

(** messages/news/Daily_News.json *)
Definition archive_path : pystr := get_chat_file_path root category title.

Definition at_0900 : Z := 1704088800.
Definition at_1000 : Z := 1704092400.
Definition at_1100 : Z := 1704096000.
Definition at_1200 : Z := 1704099600.
Definition midnight : Z := 1704056400.

Definition alice : sender := {| id := 7; username := Some (py "alice") |}.

Definition msg_at (t : Z) (words : string) : message :=
  {| msg_date := Some t; msg_sender := Some alice; msg_text := Some (py words) |}.

Definition record_at (t : Z) (words : string) : record :=
  message_record t alice (msg_at t words).

(** An archive holding the single record of 10:00. *)
Definition archive_1000 : fs :=
  {[ archive_path := write_json (JArr [record_json (record_at at_1000 "first")]) ]}.

(** The source yields 12:00, 11:00, 10:00 and ends. *)
Definition newest_first : stream :=
  {| today_start := midnight;
     items := [Some (msg_at at_1200 "third"); Some (msg_at at_1100 "second");
               Some (msg_at at_1000 "first")] |}.

(** An archive with one record per line, and [json.loads] on the one line
    of it that holds a record. *)
Definition compact_record : pystr :=
  py "{" ++ encode_basestring (py "date") ++ py ": "
  ++ encode_basestring (date (record_at at_1000 "first")) ++ py "}".

Definition compact_archive : fs :=
  {[ archive_path :=
       Text [py "["; compact_record ++ py ","; py "]"]
            (Some (JArr [JObj [(py "date", JStr (date (record_at at_1000 "first")))]])) ]}.

Definition loads_compact (line : pystr) : option json :=
  if bool_decide (line = compact_record)
  then Some (JObj [(py "date", JStr (date (record_at at_1000 "first")))])
  else None.

End Scenario.

(** ** A scenario for the merge job

    Three files under the archive root: an archive with two records, a JSON
    object, and a file that is not JSON. *)
Module MergeScenario.

#[local] Existing Instance FixedMoscow.time_lib.

Definition two_records : list json :=
  [record_json (Scenario.record_at Scenario.at_0900 "one");
   record_json (Scenario.record_at Scenario.at_1000 "two")].

Definition archive_file : walked :=
  {| w_root := py "messages/news"; w_name := py "Daily_News.json";
     w_content := write_json (JArr two_records) |}.

Definition object_file : walked :=
  {| w_root := py "messages/news"; w_name := py "settings.json";
     w_content := write_json (JObj [(py "version", JInt 1)]) |}.

Definition broken_file : walked :=
  {| w_root := py "messages/misc"; w_name := py "broken.json";
     w_content := Text [py "[{"] None |}.

Definition walk : list walked := [archive_file; object_file; broken_file].

Definition output_dir : pystr := py "merged".
Definition today : pystr := py "03-11-2026".
Definition now : pystr := py "10-15".

(** One run of the merge job at 10:15 on 3 November 2026; the file system
    it leaves. *)
Definition run (files : fs) : fs :=
  (merge_json_files walk output_dir today now files).1.

End MergeScenario.

(** ** Order of an archive *)

Section Order.
Context `{TimeLib}.

(** [a] is not later than [b]: both carry a date that parses, and the
    parsed timestamps are in order. *)
Definition date_le (a b : json) : Prop :=
  exists ka kb, date_key a = Some ka /\ date_key b = Some kb /\ (ka <= kb)%Z.

(** A JSON value that is a record with a timestamp: its sort key exists. *)
Definition dated (x : json) : Prop := is_Some (date_key x).

End Order.

(** ** What a fetch returns *)

(** Every item the source yields over a call and the calls that follow it. *)
Fixpoint source_items (src : source) : list (option message) :=
  match src with
  | Ends s _ => items s
  | Floods s _ next => items s ++ source_items next
  end.

(** The list a call hands to its caller; none when it raises. *)
Definition returned_records (o : outcome (list record)) : list record :=
  match o with
  | Returned l => l
  | ValueError _ => []
  end.

(** The invariant of a message record: a text of at most 500 characters,
    and a text that is not empty or a sender id that is not null. *)
Definition well_formed_record (r : record) : Prop :=
  length (text r) <= 500 /\ (text r <> [] \/ sender_id r <> None).

(** ** Scenarios for the fetch engine *)
Module FetchScenario.

#[local] Existing Instance FixedMoscow.time_lib.

(** The source yields 12:00, 11:00, 10:00 and ends normally. *)
Definition plain : source := Ends Scenario.newest_first true.

(** The source yields 12:00, raises [FloodWaitError] with 30 seconds, and
    on the next call yields 12:00, 11:00, 10:00 and ends. *)
Definition flooded : source :=
  Floods {| today_start := Scenario.midnight;
            items := [Some (Scenario.msg_at Scenario.at_1200 "third")] |}
         30 plain.

Definition fetch (files : fs) (src : source) (mode : pystr) (limit : option Z) :=
  parse_messages Scenario.root files src (Some Scenario.title) Scenario.category
                 mode limit 0.

Definition daily_news : chat :=
  {| chat_link := py "https://t.me/daily_news";
     resolve := Resolved (Some Scenario.title);
     chat_source := plain |}.

Definition fresh_batch : batch_state :=
  {| b_files := Scenario.archive_1000; b_request_count := 0;
     processed_chats := 0; updated_files := 0; b_events := [] |}.

End FetchScenario.

(** ** Counting events *)

Definition is_delay (e : event) : bool :=
  match e with
  | RandomDelay => true
  | _ => false
  end.

(** The pause of [check_request_limit]: three seconds. *)
Definition is_pause (e : event) : bool :=
  match e with
  | Sleep seconds => (seconds =? 3)%Z
  | _ => false
  end.

Definition count_events (p : event -> bool) (evs : list event) : Z :=
  Z.of_nat (length (List.filter p evs)).

(** ** Streams and dates of a source *)

(** The streams of the successive calls. *)
Fixpoint source_streams (src : source) : list stream :=
  match src with
  | Ends s _ => [s]
  | Floods s _ next => s :: source_streams next
  end.

(** The dates of the items that have one, in the order of the iterator. *)
Definition item_dates (l : list (option message)) : list Z :=
  omap (fun o : option message => o ≫= msg_date) l.

(** ** Leaving the loop of [get_first_message_date] *)

Section LeavingTheLoop.

Variable json_loads : pystr -> option json.

(** A line at which the loop is left, by [return] or by an exception that
    the inner handler does not catch: it starts with an opening brace, and
    [json.loads] neither fails on it nor gives an object without a date. *)
Definition leaves_loop (line : pystr) : bool :=
  startswith (py "{") line
  && match json_loads (rstrip_char comma (rstrip line)) with
     | None => false
     | Some (JObj members) =>
         match dict_get (py "date") members with
         | None => false
         | Some _ => true
         end
     | Some _ => true
     end.

End LeavingTheLoop.

(** ** Where the orchestrator saves *)

(** The path [process_chat_file] saves the messages of a chat to, when the
    chat resolves to an entity with a title. *)
Definition chat_save_path (root category : pystr) (c : chat) : option pystr :=
  match resolve c with
  | Resolved (Some title) =>
      Some (get_chat_file_path root category
              (sanitize_filename (replace_char space underscore title)))
  | _ => None
  end.

(** The chat references [process_chat_file] reads from a list file. *)
Definition chat_links_of (f : option file) : list pystr :=
  match f with
  | Some (Text lines _) => filter (fun l => l ≠ []) (strip <$> lines)
  | _ => []
  end.

(** ** [get_messages_from_chats] *)

(** What the run has reached after some of the list files: the files, the
    request counter of the one [MessageParser] all list files share, and
    the two totals. *)
Record run_state := {
  r_files : fs;
  r_request_count : Z;
  total_processed : Z;
  total_updated : Z;
  r_events : list event;
}.

Definition session_file : pystr := py "session_name.session".

Section Run.
Context `{TimeLib}.
Variable ROOT_MESSAGES_DIR : pystr.

(** The body of the [for file_path in input_files] loop. *)
Definition process_file (client : pystr -> resolution * source)
    (MODE : pystr) (LIMIT : option Z) (rs : run_state) (file_path : pystr)
  : run_state :=
  let '(processed, updated, st) :=
    process_chat_file ROOT_MESSAGES_DIR client (r_files rs) (r_request_count rs)
                      file_path MODE LIMIT in
  {| r_files := b_files st; r_request_count := b_request_count st;
     total_processed := (total_processed rs + processed)%Z;
     total_updated := (total_updated rs + updated)%Z;
     r_events := r_events rs ++ b_events st |}.

(** [get_messages_from_chats()], once the configuration is loaded and the
    client has started: [input_files] is what [glob.glob('data/*.txt')]
    gives.  [None] when the exception for the missing session file is
    raised. *)
Definition get_messages_from_chats (client : pystr -> resolution * source)
    (input_files : list pystr) (files : fs) (MODE : pystr) (LIMIT : option Z)
  : option run_state :=
  if bool_decide (is_Some (files !! session_file)) then
    let start := {| r_files := files; r_request_count := 0;
                    total_processed := 0; total_updated := 0; r_events := [] |} in
    match input_files with
    | [] =>
        Some {| r_files := files; r_request_count := 0;
                total_processed := 0; total_updated := 0;
                r_events := [LogError "get_messages_from_chats" (py "data/")] |}
    | _ :: _ =>
        let rs := foldl (process_file client MODE LIMIT) start input_files in
        Some {| r_files := r_files rs; r_request_count := r_request_count rs;
                total_processed := total_processed rs;
                total_updated := total_updated rs;
                r_events := r_events rs
                            ++ [LogInfo "get_messages_from_chats" (py "Summary")] |}
    end
  else None.

End Run.

(** The number of chat references in the list files, as [files] has
    them. *)
Definition listed_chats (files : fs) (input_files : list pystr) : Z :=
  foldr (fun p n => (Z.of_nat (length (chat_links_of (files !! p))) + n)%Z)
        0%Z input_files.

Module RunScenario.

#[local] Existing Instance FixedMoscow.time_lib.

Definition list_file : pystr := py "data/news.txt".

(** A session file, the archive with the 10:00 message and a list file
    with one chat reference and a blank line. *)
Definition files : fs :=
  <[session_file := Binary]>
    (<[list_file := Text [py "https://t.me/daily_news"; py "  "] None]>
       Scenario.archive_1000).

Definition client (chat_link : pystr) : resolution * source :=
  (Resolved (Some Scenario.title), FetchScenario.plain).

End RunScenario.

(** * Properties *)

(** ** Stripping *)

Lemma lstrip_by_head p s c :
  head (lstrip_by p s) = Some c -> p c = false.
Proof.
  induction s as [|a s IH]; simpl; [discriminate|].
  destruct (p a) eqn:Ha; [exact IH|].
  simpl. intros [= <-]. exact Ha.
Qed.

Lemma lstrip_by_suffix p s : exists dropped, s = dropped ++ lstrip_by p s.
Proof.
  induction s as [|a s [d IH]]; simpl.
  - by exists [].
  - destruct (p a).
    + exists (a :: d). simpl. by rewrite <- IH.
    + by exists [].
Qed.

Lemma rstrip_by_prefix p s : exists dropped, s = rstrip_by p s ++ dropped.
Proof.
  unfold rstrip_by.
  destruct (lstrip_by_suffix p (rev s)) as [d Hd].
  exists (rev d).
  rewrite <- rev_app_distr, <- Hd. by rewrite rev_involutive.
Qed.

Lemma last_rev_head {A} (l : list A) : last (rev l) = head l.
Proof.
  destruct l as [|a l]; [done|]. simpl. by rewrite last_snoc.
Qed.

Lemma rstrip_by_last p s c :
  last (rstrip_by p s) = Some c -> p c = false.
Proof.
  unfold rstrip_by. rewrite last_rev_head. apply lstrip_by_head.
Qed.

Lemma rstrip_by_head p s c :
  head (rstrip_by p s) = Some c -> head s = Some c.
Proof.
  destruct (rstrip_by_prefix p s) as [d Hd].
  intros Hc. rewrite Hd.
  destruct (rstrip_by p s); [discriminate|]. exact Hc.
Qed.

Lemma rstrip_by_elem p s c : c ∈ rstrip_by p s -> c ∈ s.
Proof.
  destruct (rstrip_by_prefix p s) as [d Hd].
  intros Hc. rewrite Hd. apply elem_of_app. by left.
Qed.

Lemma lstrip_by_elem p s c : c ∈ lstrip_by p s -> c ∈ s.
Proof.
  destruct (lstrip_by_suffix p s) as [d Hd].
  intros Hc. rewrite Hd. apply elem_of_app. by right.
Qed.

Lemma lstrip_by_keep p s :
  (forall c, head s = Some c -> p c = false) -> lstrip_by p s = s.
Proof.
  destruct s as [|a s]; [done|]. simpl. intros Hc.
  by rewrite (Hc a eq_refl).
Qed.

(** Nothing is removed on the right when the last character stays. *)
Lemma rstrip_by_keep p s :
  (forall c, last s = Some c -> p c = false) -> rstrip_by p s = s.
Proof.
  unfold rstrip_by. intros Hlast.
  rewrite lstrip_by_keep; [apply rev_involutive|].
  intros c Hc. apply Hlast.
  by rewrite <- (rev_involutive s), last_rev_head.
Qed.

(** ** C9: the sanitized file name *)

Lemma re_sub_invalid_clean name c :
  c ∈ re_sub_invalid name -> is_invalid_char c = false.
Proof.
  unfold re_sub_invalid. intros Hc.
  apply list_elem_of_fmap in Hc as (a & -> & _).
  destruct (is_invalid_char a) eqn:Ha; [reflexivity | exact Ha].
Qed.

(** C9, as stated, fails: the title "a<TAB>." is sanitized to "a<TAB>",
    which ends in whitespace. *)
Lemma sanitized_title_ends_in_whitespace :
  ~ sanitized_as_specified
      (sanitize_filename (replace_char space underscore title_a_tab_dot)).
Proof.
  intros (_ & _ & Hlast).
  destruct (Hlast 9%N eq_refl) as [Hsp _].
  discriminate Hsp.
Qed.

(** C9, amended: for every chat title, the file name that
    [get_chat_file_path] puts in the path contains none of the invalid
    characters, does not start with whitespace and does not end in a dot;
    it does not end in whitespace either, provided that the title, once
    stripped of whitespace, does not end in a dot. *)
Theorem sanitized_title_shape root category chat_title :
  let replaced := re_sub_invalid (replace_char space underscore chat_title) in
  let name := sanitize_filename (replace_char space underscore chat_title) in
  get_chat_file_path root category chat_title
    = root ++ py "/" ++ category ++ py "/" ++ name ++ py ".json"
  /\ (forall c, c ∈ name -> is_invalid_char c = false)
  /\ (forall c, head name = Some c -> isspace c = false)
  /\ last name <> Some dot
  /\ (last (strip replaced) <> Some dot ->
      forall c, last name = Some c -> isspace c = false).
Proof.
  intros replaced name. subst name. unfold sanitize_filename. fold replaced.
  split; [reflexivity|]. split; [|split; [|split]].
  - intros c Hc. apply (re_sub_invalid_clean (replace_char space underscore chat_title)).
    fold replaced. unfold rstrip_char, strip in Hc.
    by apply rstrip_by_elem, rstrip_by_elem, lstrip_by_elem in Hc.
  - intros c Hc. unfold rstrip_char, strip in Hc.
    apply rstrip_by_head, rstrip_by_head in Hc.
    by apply lstrip_by_head in Hc.
  - intros Hc. apply rstrip_by_last in Hc.
    by rewrite N.eqb_refl in Hc.
  - intros Hnodot c. unfold rstrip_char.
    rewrite rstrip_by_keep.
    + unfold strip. apply rstrip_by_last.
    + intros d Hd. apply N.eqb_neq. intros <-. by apply Hnodot.
Qed.

Lemma sanitized_title_shape_witness :
  last (sanitize_filename (replace_char space underscore (py " Chat: news? ")))
  = Some underscore
  /\ isspace underscore = false.
Proof.
  split; [vm_compute; reflexivity|].
  apply (proj2 (proj2 (proj2 (proj2
           (sanitized_title_shape [] [] (py " Chat: news? ")))))).
  - vm_compute. discriminate.
  - vm_compute. reflexivity.
Defined.

(** ** The lines [json.dump] writes *)

(** Induction on a JSON value, with the hypothesis for every item of an
    array and every member of an object. *)
Lemma json_nested_ind (P : json -> Prop) :
  P JNull -> (forall b, P (JBool b)) -> (forall z, P (JInt z)) ->
  (forall s, P (JStr s)) ->
  (forall l, Forall P l -> P (JArr l)) ->
  (forall f, Forall (fun kv => P kv.2) f -> P (JObj f)) ->
  forall v, P v.
Proof.
  intros HN HB HI HS HA HO. fix IH 1. intros [ | b | z | s | l | f].
  - exact HN.
  - apply HB.
  - apply HI.
  - apply HS.
  - apply HA. revert l. fix IHl 1. intros [|x l]; constructor; [apply IH | apply IHl].
  - apply HO. revert f. fix IHf 1. intros [|[k x] f]; constructor; [apply IH | apply IHf].
Qed.

Lemma no_brace_indent level s :
  startswith (py "{") (indent_of (S level) ++ s) = false.
Proof. reflexivity. Qed.

Lemma no_brace_closing level (c : N) :
  c <> 123%N -> startswith (py "{") (indent_of level ++ [c]) = false.
Proof.
  intros Hc. destruct level; [|reflexivity].
  change (((123 =? c)%N && true) = false).
  rewrite andb_true_r. apply N.eqb_neq. congruence.
Qed.

Lemma no_brace_comma l :
  startswith (py "{") l = false -> startswith (py "{") (l ++ py ",") = false.
Proof. destruct l; [reflexivity|]. simpl. done. Qed.

Lemma Forall_on_last (P : pystr -> Prop) f ls :
  (forall l, P l -> P (f l)) -> Forall P ls -> Forall P (on_last f ls).
Proof.
  intros Hf. induction 1 as [|l ls Hl Hls IH]; [constructor|].
  simpl. destruct ls as [|l' ls'].
  - constructor; [by apply Hf | constructor].
  - constructor; [exact Hl | exact IH].
Qed.

Lemma Forall_on_first (P : pystr -> Prop) f ls :
  (forall l, P (f l)) -> Forall P (tl ls) -> Forall P (on_first f ls).
Proof.
  intros Hf. destruct ls as [|l ls]; [constructor|].
  simpl. intros Hls. by constructor.
Qed.

(** Below the line a value starts on, no line of its rendering starts
    with an opening brace: inner lines are indented, closing lines hold a
    closing bracket. *)
Lemma Forall_join_items (P : pystr -> Prop) rendered :
  (forall l, P l -> P (l ++ py ",")) ->
  Forall (Forall P) rendered -> Forall P (join_items rendered).
Proof.
  intros Hcomma. induction 1 as [|ls rest Hls Hrest IH]; [constructor|].
  simpl. destruct rest as [|ls' rest']; [exact Hls|].
  apply Forall_app. split; [|exact IH].
  by apply Forall_on_last.
Qed.

Lemma dump_at_tail_no_brace v :
  forall level,
    Forall (fun line => startswith (py "{") line = false) (tl (dump_at level v)).
Proof.
  induction v as [ | b | z | s | l IH | f IH] using json_nested_ind; intros level.
  - constructor.
  - destruct b; constructor.
  - constructor.
  - constructor.
  - destruct l as [|x l]; [constructor|].
    cbn [dump_at tl]. apply Forall_app. split.
    + apply Forall_join_items; [apply no_brace_comma|].
      apply Forall_fmap. eapply Forall_impl; [exact IH|].
      intros y Hy. unfold compose.
      apply Forall_on_first; [intros l0; apply no_brace_indent | apply Hy].
    + constructor; [|constructor]. by apply no_brace_closing.
  - destruct f as [|kx f]; [constructor|].
    cbn [dump_at tl]. apply Forall_app. split.
    + apply Forall_join_items; [apply no_brace_comma|].
      apply Forall_fmap. eapply Forall_impl; [exact IH|].
      intros [k y] Hy. unfold compose.
      apply Forall_on_first; [|apply Hy].
      intros l0. rewrite <- app_assoc. apply no_brace_indent.
    + constructor; [|constructor]. by apply no_brace_closing.
Qed.

Lemma dump_lines_array_first l :
  startswith (py "[") (hd [] (dump_lines (JArr l))) = true.
Proof. destruct l; reflexivity. Qed.

(** ** Paths with a directory part *)











(** ** The first steps of [save_messages] *)

Section SaveSteps.
Context `{TimeLib}.

(** [save_messages] at a path with a directory part whose last component
    is a file name: what follows [os.makedirs]. *)
Lemma save_messages_in_directory (messages : list json) (file_path : pystr)
    (append : bool) (files : fs) :
  dirname file_path <> [] -> names_directory file_path = false ->
  save_messages messages file_path append files
  = (messages ← (if bool_decide (messages = []) then Some messages
                 else sort_by_date messages);
     let overwrite := <[file_path := write_json (JArr messages)]> files in
     let fallback := Some (overwrite, [LogError "save_messages" file_path]) in
     if append && bool_decide (is_Some (files !! file_path)) then
       match files !! file_path with
       | Some (Text _ value) =>
           match default (JArr []) value with
           | JArr existing_messages =>
               match sort_by_date (existing_messages ++ messages) with
               | Some all_messages =>
                   Some (<[file_path := write_json (JArr all_messages)]> files, [])
               | None => fallback
               end
           | _ => fallback
           end
       | _ => fallback
       end
     else Some (overwrite, [])).
Proof.
  intros Hdir Hname. unfold save_messages, makedirs.
  rewrite (bool_decide_eq_false_2 (dirname file_path = [])) by done.
  cbn [mbind option_bind].
  destruct (if bool_decide (messages = []) then Some messages
            else sort_by_date messages) as [sorted|]; [|reflexivity].
  cbn [mbind option_bind]. by rewrite Hname.
Qed.

(** At a path without directory part, or with a last component that
    names a directory, [save_messages] raises. *)
Lemma save_messages_no_file (messages : list json) (file_path : pystr)
    (append : bool) (files : fs) :
  dirname file_path = [] \/ names_directory file_path = true ->
  save_messages messages file_path append files = None.
Proof.
  unfold save_messages, makedirs. intros [Hdir|Hname].
  - by rewrite (bool_decide_eq_true_2 (dirname file_path = [])).
  - destruct (bool_decide (dirname file_path = [])); [reflexivity|].
    cbn [mbind option_bind].
    destruct (if bool_decide (messages = []) then Some messages
              else sort_by_date messages) as [sorted|]; [|reflexivity].
    cbn [mbind option_bind]. by rewrite Hname.
Qed.

(** When [save_messages] returns, the path had a directory part and a
    file name. *)
Lemma save_messages_returned (messages : list json) (file_path : pystr)
    (append : bool) (files : fs) (r : fs * list event) :
  save_messages messages file_path append files = Some r ->
  dirname file_path <> [] /\ names_directory file_path = false.
Proof.
  intros Hsave.
  destruct (decide (dirname file_path = [])) as [Hdir|Hdir].
  { rewrite save_messages_no_file in Hsave by (by left). discriminate. }
  destruct (names_directory file_path) eqn:Hname; [|done].
  rewrite save_messages_no_file in Hsave by (by right). discriminate.
Qed.

End SaveSteps.

(** A bare file name has no directory part: [os.makedirs] raises and
    nothing is written. *)
Example save_messages_bare_name_raises :
  save_messages (H := FixedMoscow.time_lib)
    [record_json (Scenario.record_at Scenario.at_1200 "third")]
    (py "plain.json") false ∅
  = None.
Proof. vm_compute. reflexivity. Qed.

(** ** C4: [get_first_message_date] on an archive written by [save_messages] *)

Section FirstDateFacts.
Context `{TimeLib}.
Variable json_loads : pystr -> option json.

(** When no line left starts with an opening brace, the loop never leaves:
    past the end of the file [readline] keeps returning the empty string. *)
Lemma scan_lines_spins (file_path : pystr) (fuel : nat) (unread : list pystr) :
  Forall (fun line => startswith (py "{") line = false) unread ->
  scan_lines json_loads file_path fuel unread = None.
Proof.
  revert unread. induction fuel as [|fuel IH]; intros unread Hno; [reflexivity|].
  destruct unread as [|line unread].
  - cbn [scan_lines hd tl]. change (startswith (py "{") []) with false.
    cbv iota. apply IH. constructor.
  - inversion Hno as [|? ? Hline Hrest]; subst.
    cbn [scan_lines hd tl]. rewrite Hline. by apply IH.
Qed.

Lemma get_first_message_date_spins (fuel : nat) (files : fs)
    (file_path : pystr) (entries : list json) :
  get_first_message_date json_loads fuel
    (<[file_path := write_json (JArr entries)]> files) file_path = None.
Proof.
  unfold get_first_message_date, write_json.
  rewrite lookup_insert_eq. rewrite dump_lines_array_first.
  apply scan_lines_spins. apply dump_at_tail_no_brace.
Qed.

Lemma save_messages_writes_array (messages : list json) (file_path : pystr)
    (append : bool) (files files' : fs) (evs : list event) :
  save_messages messages file_path append files = Some (files', evs) ->
  exists all_messages,
    files' = <[file_path := write_json (JArr all_messages)]> files.
Proof.
  intros Hsave.
  destruct (save_messages_returned _ _ _ _ _ Hsave) as [Hdir Hname].
  rewrite save_messages_in_directory in Hsave by done.
  apply bind_Some in Hsave as (sorted & _ & Hsave).
  repeat (match type of Hsave with
          | context [match ?x with _ => _ end] => destruct x
          | context [if ?b then _ else _] => destruct b
          end; try discriminate);
    injection Hsave as <- <-; eauto.
Qed.

(** C4, on the code: whatever [save_messages] has written, the archive is a
    JSON array printed with an indentation of two, so that after the first
    line no line starts with an opening brace; [get_first_message_date] then
    has not returned after any number [fuel] of iterations of its loop. *)
Theorem first_date_of_saved_archive_never_returns
    (messages : list json) (file_path : pystr) (append : bool)
    (files files' : fs) (evs : list event) (fuel : nat) :
  save_messages messages file_path append files = Some (files', evs) ->
  get_first_message_date json_loads fuel files' file_path = None.
Proof.
  intros Hsave.
  apply save_messages_writes_array in Hsave as [all_messages ->].
  apply get_first_message_date_spins.
Qed.

End FirstDateFacts.

(** On a file that does hold one record per line the loop finds the first
    date, at its first iteration here. *)
Example first_date_of_compact_archive :
  get_first_message_date (H := FixedMoscow.time_lib) Scenario.loads_compact 1
    Scenario.compact_archive Scenario.archive_path
  = Some (Some Scenario.at_1000, []).
Proof. vm_compute. reflexivity. Qed.

Lemma first_date_of_saved_archive_never_returns_witness :
  get_first_message_date (H := FixedMoscow.time_lib) (fun _ => None) 1000
    Scenario.archive_1000 Scenario.archive_path = None.
Proof.
  apply (first_date_of_saved_archive_never_returns (H := FixedMoscow.time_lib)
           (fun _ => None)
           [record_json (Scenario.record_at Scenario.at_1000 "first")]
           Scenario.archive_path false ∅ Scenario.archive_1000 []).
  vm_compute. reflexivity.
Defined.

(** ** C10: what the merge job takes from the archive tree *)

Lemma collect_entries_app pre post :
  collect_entries (pre ++ post)
  = ((collect_entries pre).1 ++ (collect_entries post).1,
     (collect_entries pre).2 ++ (collect_entries post).2).
Proof.
  induction pre as [|w pre IH]; simpl.
  - by destruct (collect_entries post).
  - rewrite IH. destruct (collect_entries pre) as [es evs]. simpl.
    destruct (endswith (py ".json") (w_name w)); [|reflexivity].
    destruct (w_content w) as [lines [[]|]|]; simpl; try reflexivity.
    by rewrite app_assoc.
Qed.

Lemma collect_entries_origin walk e :
  e ∈ (collect_entries walk).1 ->
  exists w lines data,
    w ∈ walk /\ endswith (py ".json") (w_name w) = true
    /\ w_content w = Text lines (Some (JArr data)) /\ e ∈ data.
Proof.
  induction walk as [|w walk IH]; simpl; [by intros ?%elem_of_nil|].
  destruct (collect_entries walk) as [es evs]. simpl in IH.
  assert (e ∈ es -> exists w' lines data,
             w' ∈ w :: walk /\ endswith (py ".json") (w_name w') = true
             /\ w_content w' = Text lines (Some (JArr data)) /\ e ∈ data) as Hrest.
  { intros (w' & lines & data & Hw & Hrest)%IH.
    exists w', lines, data. split; [by right | exact Hrest]. }
  destruct (endswith (py ".json") (w_name w)) eqn:Hname; [|exact Hrest].
  destruct (w_content w) as [lines [[ | b | z | s | data | f]|]|] eqn:Hcontent;
    simpl; try exact Hrest.
  intros [He|He]%elem_of_app; [|by apply Hrest].
  exists w, lines, data. repeat split; try done. by left.
Qed.

Lemma collect_entries_complete walk w lines data e :
  w ∈ walk -> endswith (py ".json") (w_name w) = true ->
  w_content w = Text lines (Some (JArr data)) -> e ∈ data ->
  e ∈ (collect_entries walk).1.
Proof.
  intros Hw Hname Hcontent He.
  apply list_elem_of_split in Hw as (pre & post & ->).
  rewrite collect_entries_app. simpl.
  destruct (collect_entries post) as [es evs].
  rewrite Hname, Hcontent. simpl.
  apply elem_of_app. right. apply elem_of_app. by left.
Qed.

Lemma collect_entries_errors walk e :
  e ∈ (collect_entries walk).2 ->
  exists w,
    w ∈ walk /\ endswith (py ".json") (w_name w) = true
    /\ e = LogError "merge_json" (path_join (w_root w) (w_name w))
    /\ (w_content w = Binary \/ exists lines, w_content w = Text lines None).
Proof.
  induction walk as [|w walk IH]; simpl; [by intros ?%elem_of_nil|].
  destruct (collect_entries walk) as [es evs]. simpl in IH.
  assert (e ∈ evs -> exists w',
             w' ∈ w :: walk /\ endswith (py ".json") (w_name w') = true
             /\ e = LogError "merge_json" (path_join (w_root w') (w_name w'))
             /\ (w_content w' = Binary \/ exists lines, w_content w' = Text lines None))
    as Hrest.
  { intros (w' & Hw & Hrest)%IH. exists w'. split; [by right | exact Hrest]. }
  destruct (endswith (py ".json") (w_name w)) eqn:Hname; [|exact Hrest].
  destruct (w_content w) as [lines [[]|]|] eqn:Hcontent; simpl; try exact Hrest.
  - intros [->|He]%elem_of_cons; [|by apply Hrest].
    exists w. repeat split; try done; [by left | right; by exists lines].
  - intros [->|He]%elem_of_cons; [|by apply Hrest].
    exists w. repeat split; try done; [by left | by left].
Qed.

(** A file that decodes to something else than an array adds nothing, to
    the entries or to the log. *)
Lemma collect_entries_skips pre w post lines v :
  w_content w = Text lines (Some v) -> (forall data, v <> JArr data) ->
  collect_entries (pre ++ w :: post) = collect_entries (pre ++ post).
Proof.
  intros Hcontent Hv.
  rewrite !collect_entries_app. simpl.
  destruct (collect_entries post) as [es evs].
  destruct (endswith (py ".json") (w_name w)); [|reflexivity].
  rewrite Hcontent. destruct v as [ | b | z | s | data | f]; try reflexivity.
  by destruct (Hv data).
Qed.

(** C10: the snapshot holds entries only from files named [*.json] whose
    top-level value is an array (and all of those); a file that decodes to
    another JSON value is left out without a trace, the run being the same
    with or without it; and an error is logged only for a [*.json] file that
    cannot be decoded. *)
Theorem merge_takes_only_json_arrays
    (walk : list walked) (output_dir current_date current_time : pystr) (files : fs) :
  let result := merge_json_files walk output_dir current_date current_time files in
  let output_path := snapshot_path output_dir current_date current_time files in
  (exists entries,
      result.1 = <[output_path := write_json (JArr entries)]> files
      /\ (forall e, e ∈ entries <->
            exists w lines data,
              w ∈ walk /\ endswith (py ".json") (w_name w) = true
              /\ w_content w = Text lines (Some (JArr data)) /\ e ∈ data))
  /\ (forall origin subject, LogError origin subject ∈ result.2 ->
        exists w,
          w ∈ walk /\ endswith (py ".json") (w_name w) = true
          /\ subject = path_join (w_root w) (w_name w)
          /\ (w_content w = Binary \/ exists lines, w_content w = Text lines None))
  /\ (forall pre w post lines v,
        walk = pre ++ w :: post ->
        w_content w = Text lines (Some v) -> (forall data, v <> JArr data) ->
        merge_json_files (pre ++ post) output_dir current_date current_time files
        = result).
Proof.
  intros result output_path. subst result output_path.
  unfold merge_json_files.
  destruct (collect_entries walk) as [entries evs] eqn:Hcollect.
  split; [|split].
  - exists entries. split; [reflexivity|].
    intros e. change entries with ((entries, evs).1). rewrite <- Hcollect.
    split; [apply collect_entries_origin|].
    intros (w & lines & data & Hw & Hname & Hcontent & He).
    by eapply collect_entries_complete.
  - intros origin subject [Hin|Hin]%elem_of_app.
    + change evs with ((entries, evs).2) in Hin. rewrite <- Hcollect in Hin.
      apply collect_entries_errors in Hin as (w & Hw & Hname & [= -> ->] & Hbad).
      by exists w.
    + apply list_elem_of_singleton in Hin. discriminate Hin.
  - intros pre w post lines v -> Hcontent Hv.
    rewrite (collect_entries_skips _ _ _ _ _ Hcontent Hv) in Hcollect.
    by rewrite Hcollect.
Qed.

Lemma merge_takes_only_json_arrays_witness :
  merge_json_files [MergeScenario.archive_file; MergeScenario.broken_file]
    MergeScenario.output_dir MergeScenario.today MergeScenario.now ∅
  = merge_json_files MergeScenario.walk
      MergeScenario.output_dir MergeScenario.today MergeScenario.now ∅.
Proof.
  apply (proj2 (proj2 (merge_takes_only_json_arrays MergeScenario.walk
                         MergeScenario.output_dir MergeScenario.today
                         MergeScenario.now ∅))
           [MergeScenario.archive_file] MergeScenario.object_file
           [MergeScenario.broken_file]
           (dump_lines (JObj [(py "version", JInt 1)]))
           (JObj [(py "version", JInt 1)])).
  - reflexivity.
  - reflexivity.
  - intros data. discriminate.
Defined.

(** ** C5: snapshot names on repeated runs of the merge job *)

Lemma snapshot_names_differ (output_dir current_date current_time : pystr) :
  path_join output_dir (py "merged-" ++ current_date ++ py ".json")
  <> path_join output_dir
       (py "merged-" ++ current_date ++ py "-" ++ current_time ++ py ".json").
Proof.
  unfold path_join. intros Heq.
  do 4 apply app_inv_head in Heq.
  discriminate Heq.
Qed.

Lemma snapshot_path_taken (output_dir current_date current_time : pystr) (files : fs) :
  is_Some (files !! path_join output_dir (py "merged-" ++ current_date ++ py ".json")) ->
  snapshot_path output_dir current_date current_time files
  = path_join output_dir
      (py "merged-" ++ current_date ++ py "-" ++ current_time ++ py ".json").
Proof.
  intros Hsome. unfold snapshot_path. by rewrite bool_decide_eq_true_2.
Qed.

Lemma merge_keeps_files (walk : list walked)
    (output_dir current_date current_time : pystr) (files : fs) (p : pystr) :
  is_Some (files !! p) ->
  is_Some ((merge_json_files walk output_dir current_date current_time files).1 !! p).
Proof.
  intros Hsome. unfold merge_json_files.
  destruct (collect_entries walk) as [entries evs]. cbn [fst].
  rewrite lookup_insert. by case_decide.
Qed.

(** After a run, the plain name of the day is taken. *)
Lemma merge_takes_plain_name (walk : list walked)
    (output_dir current_date current_time : pystr) (files : fs) :
  is_Some ((merge_json_files walk output_dir current_date current_time files).1
             !! path_join output_dir (py "merged-" ++ current_date ++ py ".json")).
Proof.
  destruct (files !! path_join output_dir (py "merged-" ++ current_date ++ py ".json"))
    as [f|] eqn:Hbase.
  - apply merge_keeps_files. by rewrite Hbase.
  - unfold merge_json_files, snapshot_path.
    destruct (collect_entries walk) as [entries evs]. cbn [fst].
    rewrite bool_decide_eq_false_2; [|rewrite Hbase; by intros [? ?]].
    rewrite lookup_insert_eq. by eexists.
Qed.

(** Three runs of the merge job with the same reading of the clock (same
    day, same minute): the third run writes under the name the second run
    used, so it replaces that snapshot with its own entries and the output
    directory gains no file. *)
Lemma third_merge_reuses_snapshot_name
    (walk1 walk2 walk3 : list walked)
    (output_dir current_date current_time : pystr) (files : fs) :
  let run walk files :=
    (merge_json_files walk output_dir current_date current_time files).1 in
  let files1 := run walk1 files in
  let files2 := run walk2 files1 in
  let files3 := run walk3 files2 in
  let second := snapshot_path output_dir current_date current_time files1 in
  snapshot_path output_dir current_date current_time files2 = second
  /\ files2 !! second = Some (write_json (JArr (collect_entries walk2).1))
  /\ files3 !! second = Some (write_json (JArr (collect_entries walk3).1))
  /\ dom files3 = dom files2.
Proof.
  intros run files1 files2 files3 second.
  assert (second = path_join output_dir
            (py "merged-" ++ current_date ++ py "-" ++ current_time ++ py ".json"))
    as Hsecond.
  { apply snapshot_path_taken, merge_takes_plain_name. }
  assert (snapshot_path output_dir current_date current_time files2 = second) as Hthird.
  { rewrite Hsecond. apply snapshot_path_taken, merge_takes_plain_name. }
  assert (files2 = <[second := write_json (JArr (collect_entries walk2).1)]> files1)
    as Hfiles2.
  { subst files2 run second. unfold merge_json_files.
    by destruct (collect_entries walk2). }
  assert (files3 = <[second := write_json (JArr (collect_entries walk3).1)]> files2)
    as Hfiles3.
  { subst files3 run. unfold merge_json_files. rewrite Hthird.
    by destruct (collect_entries walk3). }
  split; [exact Hthird|]. split; [|split].
  - rewrite Hfiles2. apply lookup_insert_eq.
  - rewrite Hfiles3. apply lookup_insert_eq.
  - rewrite Hfiles3, dom_insert_L.
    assert (second ∈ dom files2) as Hin.
    { rewrite Hfiles2, dom_insert_L. by apply elem_of_union_l, elem_of_singleton. }
    by apply subseteq_union_1_L, singleton_subseteq_l.
Qed.

(** What does hold: on a day without a snapshot, two runs write two files
    of different names, and the second run leaves the first file alone. *)
Lemma first_two_merges_write_two_files
    (walk1 walk2 : list walked)
    (output_dir current_date time1 time2 : pystr) (files : fs) :
  let plain := path_join output_dir (py "merged-" ++ current_date ++ py ".json") in
  let suffixed :=
    path_join output_dir
      (py "merged-" ++ current_date ++ py "-" ++ time2 ++ py ".json") in
  let files1 := (merge_json_files walk1 output_dir current_date time1 files).1 in
  let files2 := (merge_json_files walk2 output_dir current_date time2 files1).1 in
  files !! plain = None ->
  plain <> suffixed
  /\ files2 !! plain = Some (write_json (JArr (collect_entries walk1).1))
  /\ files2 !! suffixed = Some (write_json (JArr (collect_entries walk2).1)).
Proof.
  intros plain suffixed files1 files2 Hfree.
  assert (plain <> suffixed) as Hne by apply snapshot_names_differ.
  assert (files1 = <[plain := write_json (JArr (collect_entries walk1).1)]> files)
    as Hfiles1.
  { subst files1. unfold merge_json_files, snapshot_path. fold plain.
    rewrite bool_decide_eq_false_2 by (rewrite Hfree; by intros [? ?]).
    by destruct (collect_entries walk1). }
  assert (files2 = <[suffixed := write_json (JArr (collect_entries walk2).1)]> files1)
    as Hfiles2.
  { subst files2. unfold merge_json_files.
    rewrite snapshot_path_taken.
    - by destruct (collect_entries walk2).
    - fold plain. rewrite Hfiles1, lookup_insert_eq. by eexists. }
  split; [exact Hne|]. split.
  - rewrite Hfiles2, lookup_insert_ne by done.
    rewrite Hfiles1. apply lookup_insert_eq.
  - rewrite Hfiles2. apply lookup_insert_eq.
Qed.

(** C5, as stated, fails: with an unchanged archive tree and three runs in
    the same minute, the name the third run writes under is already taken by
    the second snapshot, and the output directory is left as it was after
    the second run, with two files and not three. *)
Lemma three_merges_two_snapshots :
  is_Some (MergeScenario.run (MergeScenario.run ∅)
             !! snapshot_path MergeScenario.output_dir MergeScenario.today
                  MergeScenario.now (MergeScenario.run (MergeScenario.run ∅)))
  /\ MergeScenario.run (MergeScenario.run (MergeScenario.run ∅))
     = MergeScenario.run (MergeScenario.run ∅)
  /\ size (MergeScenario.run (MergeScenario.run (MergeScenario.run ∅))) = 2.
Proof. repeat split; vm_compute; by eexists. Qed.

(** C5, amended: the merge job never overwrites the plain snapshot of the
    day, [merged-<date>.json]: a run that finds it writes under the name
    with the time suffix and leaves it as it is.  So on a day that has no
    snapshot yet, two runs in a row over an unchanged archive tree yield two
    files with the same content under different names, the first not
    touched by the second. *)
Theorem merge_spares_plain_snapshot
    (walk : list walked) (output_dir current_date time1 time2 : pystr) (files : fs) :
  let plain := path_join output_dir (py "merged-" ++ current_date ++ py ".json") in
  let suffixed t :=
    path_join output_dir (py "merged-" ++ current_date ++ py "-" ++ t ++ py ".json") in
  let run t files := (merge_json_files walk output_dir current_date t files).1 in
  let snapshot := write_json (JArr (collect_entries walk).1) in
  (is_Some (files !! plain) ->
   snapshot_path output_dir current_date time1 files = suffixed time1
   /\ suffixed time1 <> plain
   /\ run time1 files !! plain = files !! plain
   /\ run time1 files !! suffixed time1 = Some snapshot)
  /\ (files !! plain = None ->
      snapshot_path output_dir current_date time1 files = plain
      /\ snapshot_path output_dir current_date time2 (run time1 files) = suffixed time2
      /\ plain <> suffixed time2
      /\ run time2 (run time1 files) !! plain = Some snapshot
      /\ run time2 (run time1 files) !! suffixed time2 = Some snapshot).
Proof.
  intros plain suffixed run snapshot. split.
  - intros Htaken.
    assert (snapshot_path output_dir current_date time1 files = suffixed time1)
      as Hpath by (by apply snapshot_path_taken).
    assert (suffixed time1 <> plain) as Hne.
    { intros Heq. by apply (snapshot_names_differ output_dir current_date time1). }
    assert (run time1 files = <[suffixed time1 := snapshot]> files) as Hrun.
    { subst run snapshot. cbv beta. unfold merge_json_files. rewrite Hpath.
      by destruct (collect_entries walk). }
    split; [exact Hpath|]. split; [exact Hne|]. split.
    + rewrite Hrun. by apply lookup_insert_ne.
    + rewrite Hrun. apply lookup_insert_eq.
  - intros Hfree.
    destruct (first_two_merges_write_two_files walk walk output_dir current_date
                time1 time2 files Hfree) as (Hne & Hplain & Hsuffixed).
    assert (snapshot_path output_dir current_date time1 files = plain) as Hpath.
    { unfold snapshot_path. fold plain.
      by rewrite bool_decide_eq_false_2 by (rewrite Hfree; by intros [? ?]). }
    split; [exact Hpath|]. split; [|split; [exact Hne|split; assumption]].
    apply snapshot_path_taken, merge_takes_plain_name.
Qed.

Lemma merge_spares_plain_snapshot_witness :
  MergeScenario.run (MergeScenario.run ∅)
    !! path_join MergeScenario.output_dir (py "merged-03-11-2026.json")
  = Some (write_json (JArr MergeScenario.two_records))
  /\ MergeScenario.run (MergeScenario.run ∅)
       !! path_join MergeScenario.output_dir (py "merged-03-11-2026-10-15.json")
     = Some (write_json (JArr MergeScenario.two_records)).
Proof.
  destruct (proj2 (merge_spares_plain_snapshot MergeScenario.walk
                     MergeScenario.output_dir MergeScenario.today
                     MergeScenario.now MergeScenario.now ∅) (lookup_empty _))
    as (_ & _ & _ & Hplain & Hsuffixed).
  split; [exact Hplain | exact Hsuffixed].
Defined.

(** ** C2: appending to an archive *)

Section SortFacts.
Context `{TimeLib}.

Lemma with_keys_dated (l : list json) :
  Forall dated l ->
  exists kl, with_keys l = Some kl /\ kl.*2 = l
             /\ Forall (fun kx => date_key kx.2 = Some kx.1) kl.
Proof.
  induction 1 as [|x l [k Hk] Hl (kl & Hkl & Hsnd & Hkeys)].
  - exists []. by repeat split.
  - exists ((k, x) :: kl). split; [|split].
    + cbn [with_keys]. by rewrite Hk, Hkl.
    + rewrite fmap_cons. by rewrite Hsnd.
    + by constructor.
Qed.

Lemma insert_by_key_perm kx (l : list (Z * json)) :
  insert_by_key kx l ≡ₚ kx :: l.
Proof.
  induction l as [|ky l IH]; simpl; [reflexivity|].
  destruct (kx.1 <=? ky.1)%Z; [reflexivity|].
  rewrite IH. apply Permutation_swap.
Qed.

Lemma sort_keyed_perm (l : list (Z * json)) : sort_keyed l ≡ₚ l.
Proof.
  induction l as [|kx l IH]; simpl; [reflexivity|].
  rewrite insert_by_key_perm. by rewrite IH.
Qed.

Lemma insert_by_key_sorted kx (l : list (Z * json)) :
  Sorted (fun a b => (a.1 <= b.1)%Z) l ->
  Sorted (fun a b => (a.1 <= b.1)%Z) (insert_by_key kx l).
Proof.
  induction 1 as [|ky l Hl IH Hhd]; simpl.
  - repeat constructor.
  - destruct (kx.1 <=? ky.1)%Z eqn:Hle.
    + constructor; [by constructor|]. constructor. lia.
    + constructor; [exact IH|].
      destruct l as [|kz l]; simpl.
      * constructor. lia.
      * inversion Hhd; subst.
        destruct (kx.1 <=? kz.1)%Z; constructor; [lia | assumption].
Qed.

Lemma sort_keyed_sorted (l : list (Z * json)) :
  Sorted (fun a b => (a.1 <= b.1)%Z) (sort_keyed l).
Proof.
  induction l as [|kx l IH]; simpl; [constructor|].
  by apply insert_by_key_sorted.
Qed.

Lemma sorted_values (kl : list (Z * json)) :
  Forall (fun kx => date_key kx.2 = Some kx.1) kl ->
  Sorted (fun a b => (a.1 <= b.1)%Z) kl ->
  Sorted date_le (kl.*2).
Proof.
  intros Hkeys. induction 1 as [|kx kl Hsorted IH Hhd]; [constructor|].
  inversion Hkeys as [|? ? Hkx Hkl]; subst.
  simpl. constructor; [by apply IH|].
  destruct Hhd as [|ky kl' Hle]; simpl; constructor.
  inversion Hkl as [|? ? Hky _]; subst.
  exists kx.1, ky.1. by repeat split.
Qed.

(** Sorting a list of dated values succeeds, keeps every value and puts
    them in ascending order of timestamp. *)
Lemma sort_by_date_dated (l : list json) :
  Forall dated l ->
  exists sorted, sort_by_date l = Some sorted /\ sorted ≡ₚ l /\ Sorted date_le sorted.
Proof.
  intros (kl & Hkl & Hsnd & Hkeys)%with_keys_dated.
  exists ((sort_keyed kl).*2). unfold sort_by_date. rewrite Hkl. simpl.
  split; [reflexivity|]. split.
  - rewrite <- Hsnd. apply fmap_Permutation, sort_keyed_perm.
  - apply sorted_values; [|apply sort_keyed_sorted].
    by rewrite sort_keyed_perm.
Qed.

(** C2: let [file_path] have a directory part and a file name as its last
    component, as every archive path has.  When the archive at [file_path]
    decodes to an array of dated records and [messages] are dated records
    in any order, [save_messages(messages, file_path, append=True)] returns
    normally, logs nothing and leaves at [file_path] the dump of an array
    that is a rearrangement of the old entries followed by the new ones,
    hence as long as both together, in ascending order of timestamp. *)
Theorem save_append_keeps_all_sorted
    (files : fs) (file_path : pystr) (lines : list pystr)
    (existing messages : list json) :
  dirname file_path <> [] ->
  names_directory file_path = false ->
  files !! file_path = Some (Text lines (Some (JArr existing))) ->
  Forall dated existing ->
  Forall dated messages ->
  exists all_messages,
    save_messages messages file_path true files
    = Some (<[file_path := write_json (JArr all_messages)]> files, [])
    /\ length all_messages = length existing + length messages
    /\ all_messages ≡ₚ existing ++ messages
    /\ Sorted date_le all_messages.
Proof.
  intros Hdir Hname Hfile Hexisting Hmessages.
  assert (exists sorted,
             (if bool_decide (messages = []) then Some messages
              else sort_by_date messages) = Some sorted
             /\ sorted ≡ₚ messages) as (sorted & Hsorted & Hperm).
  { case_bool_decide; [by exists messages|].
    destruct (sort_by_date_dated messages Hmessages) as (s & Hs & Hp & _).
    by exists s. }
  assert (Forall dated (existing ++ sorted)) as Hall.
  { apply Forall_app. split; [exact Hexisting|].
    by rewrite Hperm. }
  destruct (sort_by_date_dated _ Hall) as (all_messages & Hsort & Hpall & Hordered).
  exists all_messages. rewrite save_messages_in_directory by done.
  rewrite Hsorted. cbn [mbind option_bind].
  rewrite Hfile. rewrite bool_decide_eq_true_2 by (by eexists).
  cbn [andb from_option]. unfold Datatypes.id. rewrite Hsort.
  assert (all_messages ≡ₚ existing ++ messages) as Hfinal.
  { by rewrite Hpall, Hperm. }
  repeat split; try done.
  by rewrite Hfinal, length_app.
Qed.

End SortFacts.

Lemma save_append_keeps_all_sorted_witness :
  exists all_messages,
    save_messages (H := FixedMoscow.time_lib)
      [record_json (Scenario.record_at Scenario.at_1200 "third");
       record_json (Scenario.record_at Scenario.at_1100 "second")]
      Scenario.archive_path true Scenario.archive_1000
    = Some (<[Scenario.archive_path := write_json (JArr all_messages)]>
              Scenario.archive_1000, [])
    /\ length all_messages = 1 + 2
    /\ all_messages ≡ₚ
         [record_json (Scenario.record_at Scenario.at_1000 "first")]
         ++ [record_json (Scenario.record_at Scenario.at_1200 "third");
             record_json (Scenario.record_at Scenario.at_1100 "second")]
    /\ Sorted (date_le (H := FixedMoscow.time_lib)) all_messages.
Proof.
  apply (save_append_keeps_all_sorted (H := FixedMoscow.time_lib)
           Scenario.archive_1000 Scenario.archive_path
           (dump_lines (JArr [record_json (Scenario.record_at Scenario.at_1000 "first")]))
           [record_json (Scenario.record_at Scenario.at_1000 "first")]
           [record_json (Scenario.record_at Scenario.at_1200 "third");
            record_json (Scenario.record_at Scenario.at_1100 "second")]).
  - vm_compute. discriminate.
  - vm_compute. reflexivity.
  - vm_compute. reflexivity.
  - repeat constructor. vm_compute. by eexists.
  - repeat constructor; vm_compute; by eexists.
Defined.

(** ** The fetch engine *)

Section FetchFacts.
Context `{TimeLib}.
Variable ROOT_MESSAGES_DIR : pystr.

(** What holds of the records a message can add holds of the accumulator
    when the loop is left. *)
Lemma paginate_records (P : record -> Prop) mode (ts : Z) (last_date limit : option Z)
    (remaining : list (option message)) :
  (forall m d s,
      Some m ∈ remaining -> msg_date m = Some d -> msg_sender m = Some s ->
      stop_before mode ts last_date d = false ->
      worth_keeping (message_record d s m) = true ->
      P (message_record d s m)) ->
  forall (acc : list record) (count message_count : Z),
    Forall P acc ->
    Forall P (messages_data
                (paginate mode ts last_date limit remaining acc count message_count)).
Proof.
  induction remaining as [|message remaining IH]; intros Hstep acc count n Hacc.
  - exact Hacc.
  - assert (forall acc' count' n', Forall P acc' ->
              Forall P (messages_data
                          (paginate mode ts last_date limit remaining acc' count' n')))
      as IH'.
    { intros acc' count' n'. apply IH.
      intros m d s Hin. apply Hstep. by right. }
    cbn [paginate]. destruct (check_request_limit count) as [count' evs].
    destruct message as [m|]; [|by apply IH'].
    destruct (msg_date m) as [d|] eqn:Hd; [|by apply IH'].
    destruct (stop_before mode ts last_date d) eqn:Hstop; [exact Hacc|].
    destruct (msg_sender m) as [s|] eqn:Hs; [|by apply IH'].
    assert (Forall P (if worth_keeping (message_record d s m)
                      then message_record d s m :: acc else acc)) as Hacc'.
    { destruct (worth_keeping (message_record d s m)) eqn:Hkeep; [|exact Hacc].
      constructor; [|exact Hacc]. apply Hstep; try done. by left. }
    destruct (limit_reached limit (n + 1)); [exact Hacc'|].
    by apply IH'.
Qed.

Lemma parse_messages_records (P : record -> Prop) (files : fs)
    (chat_title : option pystr) (category mode : pystr) (src : source) :
  let file_path :=
    get_chat_file_path ROOT_MESSAGES_DIR category (default (py "chat") chat_title) in
  (forall limit ts last_date limit' evs0 m d s,
      determine_mode files file_path mode limit ts = Returned (last_date, limit', evs0) ->
      Some m ∈ source_items src -> msg_date m = Some d -> msg_sender m = Some s ->
      stop_before mode ts last_date d = false ->
      worth_keeping (message_record d s m) = true ->
      P (message_record d s m)) ->
  forall (limit : option Z) (count : Z),
    Forall P (returned_records
                (parse_messages ROOT_MESSAGES_DIR files src chat_title category
                                mode limit count).1.1).
Proof.
  intros file_path.
  induction src as [s normally | s seconds next IH]; intros Hstep limit count.
  - cbn [parse_messages source_stream]. fold file_path.
    destruct (determine_mode files file_path mode limit (today_start s))
      as [[[last_date limit'] evs0]|msg] eqn:Hmode; [|constructor].
    assert (Forall P (messages_data
                        (paginate mode (today_start s) last_date limit' (items s)
                                  [] count 0))) as Hdata.
    { apply paginate_records; [|constructor].
      intros m d s0 Hin. by eapply Hstep. }
    destruct (broke _); [exact Hdata|]. by destruct normally.
  - cbn [parse_messages source_stream]. fold file_path.
    destruct (determine_mode files file_path mode limit (today_start s))
      as [[[last_date limit'] evs0]|msg] eqn:Hmode; [|constructor].
    assert (Forall P (messages_data
                        (paginate mode (today_start s) last_date limit' (items s)
                                  [] count 0))) as Hdata.
    { apply paginate_records; [|constructor].
      intros m d s0 Hin. eapply Hstep; [exact Hmode|].
      cbn [source_items]. apply elem_of_app. by left. }
    destruct (broke _); [exact Hdata|].
    specialize (IH (fun limit ts last_date limit' evs0 m d s0 Hm Hin =>
                      Hstep limit ts last_date limit' evs0 m d s0 Hm
                            (proj2 (elem_of_app _ _ _) (or_intror Hin)))
                   limit'
                   (request_count (paginate mode (today_start s) last_date limit'
                                            (items s) [] count 0))).
    destruct (parse_messages _ _ next _ _ _ _ _) as [[res count'] evs']. exact IH.
Qed.

(** ** C6: the records a fetch returns *)

Lemma message_record_well_formed (d : Z) (s : sender) (m : message) :
  worth_keeping (message_record d s m) = true ->
  well_formed_record (message_record d s m).
Proof.
  unfold worth_keeping, well_formed_record. cbn [message_record text sender_id].
  intros Hkeep. split.
  - rewrite length_take. lia.
  - apply orb_true_iff in Hkeep as [Htext|Hid].
    + left. apply negb_true_iff in Htext. by apply bool_decide_eq_false in Htext.
    + right. discriminate.
Qed.

(** C6: whatever the archive, the source, the mode and the limit, every
    record in the list [parse_messages] returns has a text of at most 500
    characters and has a text that is not empty or a sender id that is not
    null; such a list is all that the orchestrator persists. *)
Theorem returned_records_well_formed
    (files : fs) (src : source) (chat_title : option pystr)
    (category mode : pystr) (limit : option Z) (count : Z) :
  Forall well_formed_record
    (returned_records
       (parse_messages ROOT_MESSAGES_DIR files src chat_title category
                       mode limit count).1.1).
Proof.
  apply parse_messages_records.
  intros _ _ _ _ _ m d s _ _ _ _ _. apply message_record_well_formed.
Qed.

End FetchFacts.

Section FetchModes.
Context `{TimeLib}.
Variable ROOT_MESSAGES_DIR : pystr.

Lemma determine_mode_last_saved (files : fs) (file_path : pystr)
    (limit : option Z) (ts : Z) :
  determine_mode files file_path mode_last_saved limit ts
  = match get_last_message_date files file_path with
    | (None, evs) => Returned (None, Some (or_default limit 5000), evs)
    | (Some T, evs) => Returned (Some T, limit, evs)
    end.
Proof.
  unfold determine_mode. rewrite bool_decide_eq_true_2 by reflexivity.
  by destruct (get_last_message_date files file_path) as [[T|] evs].
Qed.

Lemma stop_before_last_saved (ts : Z) (last_date : option Z) (d : Z) :
  stop_before mode_last_saved ts last_date d = reached_saved last_date d.
Proof. reflexivity. Qed.

(** In the mode [last_saved] a call always returns a list. *)
Lemma last_saved_returns (files : fs) (chat_title : option pystr) (category : pystr)
    (src : source) :
  forall (limit : option Z) (count : Z),
  exists msgs count' evs,
    parse_messages ROOT_MESSAGES_DIR files src chat_title category
                   mode_last_saved limit count
    = (Returned msgs, count', evs).
Proof.
  induction src as [s normally | s seconds next IH]; intros limit count;
    cbn [parse_messages]; rewrite determine_mode_last_saved;
    destruct (get_last_message_date _ _) as [[T|] evs0];
    destruct (broke _); try destruct normally; eauto;
    match goal with
    | |- context [parse_messages _ _ next _ _ _ ?l ?c] =>
        destruct (IH l c) as (msgs & count' & evs & ->); eauto
    end.
Qed.

(** ** C1: a fetch in the mode [last_saved] *)

(** The loop is left at the first message that is not newer than the
    boundary: what the source would yield after it is never looked at. *)
Lemma paginate_stops_at_boundary (ts T d : Z) (limit : option Z) (m : message)
    (later : list (option message)) (acc : list record) (count message_count : Z) :
  msg_date m = Some d -> (d <= T)%Z ->
  paginate mode_last_saved ts (Some T) limit (Some m :: later) acc count message_count
  = {| messages_data := acc;
       request_count := (check_request_limit count).1;
       loop_events := (check_request_limit count).2 ++ random_delay;
       broke := true |}.
Proof.
  intros Hd Hle. cbn [paginate].
  destruct (check_request_limit count) as [count' evs].
  rewrite Hd, stop_before_last_saved. cbn [reached_saved].
  by rewrite (proj2 (Z.leb_le d T) Hle).
Qed.

(** C1: let the archive of the chat give the resume boundary [T], that is,
    let its last record carry the timestamp [T], and let the dates of the
    messages of the source survive formatting and parsing.  Then a call of
    [parse_messages] in the mode [last_saved] returns a list, and every
    record of that list carries the date of a message strictly newer than
    [T], which is also the timestamp read back from the record. *)
Theorem last_saved_returns_only_newer
    (files : fs) (src : source) (chat_title : option pystr) (category : pystr)
    (limit : option Z) (count : Z) (T : Z) (evs0 : list event) :
  get_last_message_date files
    (get_chat_file_path ROOT_MESSAGES_DIR category (default (py "chat") chat_title))
  = (Some T, evs0) ->
  (forall m d, Some m ∈ source_items src -> msg_date m = Some d ->
               parse_moscow_time (format_moscow_time d) = Some d) ->
  exists msgs count' evs,
    parse_messages ROOT_MESSAGES_DIR files src chat_title category
                   mode_last_saved limit count
    = (Returned msgs, count', evs)
    /\ forall r, r ∈ msgs ->
         exists t, date r = format_moscow_time t
                   /\ parse_moscow_time (date r) = Some t /\ (T < t)%Z.
Proof.
  intros Hlast Hround.
  destruct (last_saved_returns files chat_title category src limit count)
    as (msgs & count' & evs & Hrun).
  exists msgs, count', evs. split; [exact Hrun|].
  pose proof (parse_messages_records ROOT_MESSAGES_DIR
                (fun r => exists t, date r = format_moscow_time t
                                    /\ parse_moscow_time (date r) = Some t /\ (T < t)%Z)
                files chat_title category mode_last_saved src) as Hrecords.
  cbv zeta in Hrecords.
  specialize (Hrecords
    ltac:(intros limit0 ts last_date limit' evs1 m d s Hmode Hin Hd Hs Hstop _;
          rewrite determine_mode_last_saved, Hlast in Hmode;
          injection Hmode as <- <- <-;
          rewrite stop_before_last_saved in Hstop; cbn [reached_saved] in Hstop;
          exists d; split; [reflexivity|];
          split; [exact (Hround m d Hin Hd) | lia])
    limit count).
  rewrite Hrun in Hrecords. cbn [fst returned_records] in Hrecords.
  intros r Hr. by apply (proj1 (Forall_forall _ _) Hrecords).
Qed.

End FetchModes.

Lemma last_saved_returns_only_newer_witness :
  exists msgs count' evs,
    FetchScenario.fetch Scenario.archive_1000 FetchScenario.plain mode_last_saved None
    = (Returned msgs, count', evs)
    /\ forall r, r ∈ msgs ->
         exists t, date r = format_moscow_time (H := FixedMoscow.time_lib) t
                   /\ parse_moscow_time (H := FixedMoscow.time_lib) (date r) = Some t
                   /\ (Scenario.at_1000 < t)%Z.
Proof.
  apply (last_saved_returns_only_newer (H := FixedMoscow.time_lib) Scenario.root
           Scenario.archive_1000 FetchScenario.plain (Some Scenario.title)
           Scenario.category None 0 Scenario.at_1000 []).
  - vm_compute. reflexivity.
  - intros m d Hin Hd. cbn in Hin.
    repeat (apply elem_of_cons in Hin as [Hin|Hin]);
      try (injection Hin as ->; injection Hd as <-; vm_compute; reflexivity).
    by apply elem_of_nil in Hin.
Defined.

(** The second scenario of the specification: with 10:00 archived and the
    source yielding 12:00, 11:00, 10:00, the fetch returns 11:00 and 12:00,
    and the orchestrator leaves 10:00, 11:00, 12:00 in the archive. *)
Example fetch_stops_at_boundary :
  (FetchScenario.fetch Scenario.archive_1000 FetchScenario.plain mode_last_saved None).1.1
  = Returned [Scenario.record_at Scenario.at_1100 "second";
              Scenario.record_at Scenario.at_1200 "third"]
  /\ b_files (process_chat (H := FixedMoscow.time_lib) Scenario.root Scenario.category
                mode_last_saved None FetchScenario.daily_news FetchScenario.fresh_batch)
     = {[ Scenario.archive_path :=
            write_json (JArr [record_json (Scenario.record_at Scenario.at_1000 "first");
                              record_json (Scenario.record_at Scenario.at_1100 "second");
                              record_json (Scenario.record_at Scenario.at_1200 "third")]) ]}.
Proof. split; vm_compute; reflexivity. Qed.

(** ** C3: the budget of a fetch in the mode [last_saved] *)

(** C3, as stated, fails: with 10:00 archived the boundary exists, yet with
    a limit of 1 the fetch returns after one message, although 11:00 is
    newer than the boundary too; without a limit it returns both. *)
Lemma limit_cuts_last_saved_fetch :
  get_last_message_date (H := FixedMoscow.time_lib)
    Scenario.archive_1000 Scenario.archive_path = (Some Scenario.at_1000, [])
  /\ (FetchScenario.fetch Scenario.archive_1000 FetchScenario.plain
        mode_last_saved (Some 1%Z)).1.1
     = Returned [Scenario.record_at Scenario.at_1200 "third"]
  /\ (FetchScenario.fetch Scenario.archive_1000 FetchScenario.plain
        mode_last_saved None).1.1
     = Returned [Scenario.record_at Scenario.at_1100 "second";
                 Scenario.record_at Scenario.at_1200 "third"].
Proof. repeat split; vm_compute; reflexivity. Qed.

Section FetchBudget.
Context `{TimeLib}.

(** Without a limit, the loop is left early only at a message that is not
    newer than the boundary. *)
Lemma paginate_unlimited_break (ts T : Z) (remaining : list (option message)) :
  forall (acc : list record) (count message_count : Z),
    broke (paginate mode_last_saved ts (Some T) None remaining acc count message_count)
    = true ->
    exists m d, Some m ∈ remaining /\ msg_date m = Some d /\ (d <= T)%Z.
Proof.
  induction remaining as [|message remaining IH]; intros acc count n;
    [discriminate|].
  assert (forall acc' count' n',
             broke (paginate mode_last_saved ts (Some T) None remaining acc' count' n')
             = true ->
             exists m d, Some m ∈ message :: remaining /\ msg_date m = Some d
                         /\ (d <= T)%Z) as IH'.
  { intros acc' count' n' (m & d & Hin & Hd)%IH. exists m, d. split; [by right|done]. }
  cbn [paginate]. destruct (check_request_limit count) as [count' evs].
  destruct message as [m|]; [|by apply IH'].
  destruct (msg_date m) as [d|] eqn:Hd; [|by apply IH'].
  rewrite stop_before_last_saved. cbn [reached_saved].
  destruct (d <=? T)%Z eqn:Hle.
  - intros _. exists m, d. repeat split; [by left | done | lia].
  - destruct (msg_sender m) as [s|]; [|by apply IH'].
    cbn [limit_reached]. by apply IH'.
Qed.

(** C3, amended: in the mode [last_saved], when the archive yields no
    resume boundary the budget is the configured limit, and 5000 when none
    is configured; when it yields a boundary the budget is the configured
    limit as it is, so that the fetch is unlimited only if no limit is
    configured, and then it goes on until the boundary is reached. *)
Theorem last_saved_budget (files : fs) (file_path : pystr) (limit : option Z) (ts : Z) :
  (forall evs,
      get_last_message_date files file_path = (None, evs) ->
      determine_mode files file_path mode_last_saved limit ts
      = Returned (None, Some (or_default limit 5000), evs))
  /\ or_default None 5000 = 5000%Z
  /\ (forall T evs,
        get_last_message_date files file_path = (Some T, evs) ->
        determine_mode files file_path mode_last_saved limit ts
        = Returned (Some T, limit, evs))
  /\ (forall T remaining acc count message_count,
        broke (paginate mode_last_saved ts (Some T) None remaining acc count message_count)
        = true ->
        exists m d, Some m ∈ remaining /\ msg_date m = Some d /\ (d <= T)%Z).
Proof.
  split; [|split; [|split]].
  - intros evs Hlast. by rewrite determine_mode_last_saved, Hlast.
  - reflexivity.
  - intros T evs Hlast. by rewrite determine_mode_last_saved, Hlast.
  - intros T remaining acc count n. apply paginate_unlimited_break.
Qed.

End FetchBudget.

Lemma last_saved_budget_witness :
  determine_mode (H := FixedMoscow.time_lib) ∅ Scenario.archive_path
    mode_last_saved None Scenario.midnight
  = Returned (None, Some 5000%Z, [])
  /\ determine_mode (H := FixedMoscow.time_lib) Scenario.archive_1000
       Scenario.archive_path mode_last_saved (Some 1%Z) Scenario.midnight
     = Returned (Some Scenario.at_1000, Some 1%Z, []).
Proof.
  split.
  - apply (proj1 (last_saved_budget (H := FixedMoscow.time_lib) ∅
                    Scenario.archive_path None Scenario.midnight)).
    vm_compute. reflexivity.
  - apply (proj1 (proj2 (proj2 (last_saved_budget (H := FixedMoscow.time_lib)
                                  Scenario.archive_1000 Scenario.archive_path
                                  (Some 1%Z) Scenario.midnight)))).
    vm_compute. reflexivity.
Defined.

(** ** C7: the rate-limit signal *)

Section FloodWait.
Context `{TimeLib}.
Variable ROOT_MESSAGES_DIR : pystr.

Lemma or_default_idem (limit : option Z) :
  or_default (Some (or_default limit 5000)) 5000 = or_default limit 5000.
Proof.
  destruct limit as [l|]; [|reflexivity]. cbn [or_default].
  destruct (l =? 0)%Z eqn:Hl; [reflexivity|]. by rewrite Hl.
Qed.

(** The limit a call passes on to the call it makes to itself sets up the
    same fetch as the limit it was given. *)
Lemma determine_mode_again (files : fs) (file_path mode : pystr)
    (limit limit' last_date : option Z) (ts : Z) (evs : list event) :
  determine_mode files file_path mode limit ts = Returned (last_date, limit', evs) ->
  forall ts', determine_mode files file_path mode limit' ts'
              = determine_mode files file_path mode limit ts'.
Proof.
  unfold determine_mode. intros Hmode ts'.
  repeat case_bool_decide; try discriminate.
  - destruct (get_last_message_date files file_path) as [[T|] evs1].
    + by injection Hmode as _ <- _.
    + injection Hmode as _ <- _. by rewrite or_default_idem.
  - destruct (get_last_message_date files file_path) as [[T|] evs1].
    + destruct (ts <=? T)%Z; by injection Hmode as _ <- _.
    + by injection Hmode as _ <- _.
  - by injection Hmode as _ <- _.
  - destruct (limit_missing limit) eqn:Hmissing; [discriminate|].
    destruct (get_last_message_date files file_path) as [last evs1].
    injection Hmode as _ <- _. by rewrite Hmissing.
Qed.

Lemma parse_messages_same_setup (files : fs) (chat_title : option pystr)
    (category mode : pystr) (limit1 limit2 : option Z) (src : source) (count : Z) :
  (forall ts,
      determine_mode files
        (get_chat_file_path ROOT_MESSAGES_DIR category (default (py "chat") chat_title))
        mode limit1 ts
      = determine_mode files
          (get_chat_file_path ROOT_MESSAGES_DIR category (default (py "chat") chat_title))
          mode limit2 ts) ->
  parse_messages ROOT_MESSAGES_DIR files src chat_title category mode limit1 count
  = parse_messages ROOT_MESSAGES_DIR files src chat_title category mode limit2 count.
Proof.
  intros Hsame. destruct src; cbn [parse_messages]; by rewrite Hsame.
Qed.

(** C7: let the iterator raise [FloodWaitError] with [seconds] once the loop
    has gone through the items of the first stream without leaving.  Then
    the call sleeps for [seconds], exactly once and right after the events
    of the interrupted pagination, and its result is the result of a fresh
    call with the same mode and the same limit on what the source does
    next: the records accumulated before the wait are not part of it. *)
Theorem flood_wait_restarts_fetch
    (files : fs) (s : stream) (seconds : Z) (next : source)
    (chat_title : option pystr) (category mode : pystr)
    (limit : option Z) (count : Z)
    (last_date limit' : option Z) (evs0 : list event) :
  let file_path :=
    get_chat_file_path ROOT_MESSAGES_DIR category (default (py "chat") chat_title) in
  let st := paginate mode (today_start s) last_date limit' (items s) [] count 0 in
  let fresh :=
    parse_messages ROOT_MESSAGES_DIR files next chat_title category mode limit
                   (request_count st) in
  determine_mode files file_path mode limit (today_start s)
  = Returned (last_date, limit', evs0) ->
  broke st = false ->
  parse_messages ROOT_MESSAGES_DIR files (Floods s seconds next) chat_title
                 category mode limit count
  = (fresh.1.1, fresh.1.2, evs0 ++ loop_events st ++ [Sleep seconds] ++ fresh.2).
Proof.
  intros file_path st fresh Hmode Hbroke.
  cbn [parse_messages source_stream]. fold file_path. rewrite Hmode.
  fold st. rewrite Hbroke.
  rewrite (parse_messages_same_setup files chat_title category mode limit' limit)
    by (intros ts; by eapply determine_mode_again).
  fold fresh. destruct fresh as [[res count'] evs'].
  cbn [fst snd]. by rewrite <- app_assoc.
Qed.

End FloodWait.

Lemma flood_wait_restarts_fetch_witness :
  FetchScenario.fetch Scenario.archive_1000 FetchScenario.flooded mode_last_saved None
  = (Returned [Scenario.record_at Scenario.at_1100 "second";
               Scenario.record_at Scenario.at_1200 "third"],
     4%Z,
     [RandomDelay; Sleep 30; RandomDelay; RandomDelay; RandomDelay]).
Proof.
  unfold FetchScenario.fetch, FetchScenario.flooded.
  rewrite (flood_wait_restarts_fetch (H := FixedMoscow.time_lib) Scenario.root
             Scenario.archive_1000 _ 30 FetchScenario.plain (Some Scenario.title)
             Scenario.category mode_last_saved None 0
             (Some Scenario.at_1000) None []).
  - vm_compute. reflexivity.
  - vm_compute. reflexivity.
  - vm_compute. reflexivity.
Defined.

(** ** C8: configuration errors *)

Section Configuration.
Context `{TimeLib}.
Variable ROOT_MESSAGES_DIR : pystr.

Lemma determine_mode_rejects (files : fs) (file_path mode : pystr)
    (limit : option Z) (ts : Z) :
  (mode = mode_count /\ limit = None)
  \/ mode ∉ [mode_last_saved; mode_today; mode_all; mode_count] ->
  exists msg, determine_mode files file_path mode limit ts = ValueError msg.
Proof.
  unfold determine_mode. intros [[-> ->]|Hmode].
  - by eexists.
  - repeat (case_bool_decide;
            [subst mode; exfalso; apply Hmode; set_solver|]).
    by eexists.
Qed.

(** C8: in the mode [count] without a limit, and in any mode that is not
    one of the four, [parse_messages] raises [ValueError] whatever the
    source would do, having slept, logged and counted nothing; and
    [process_chat_file] catches it: the chat is given up with one error
    logged, the counters and the files are left as they were, and the loop
    goes on with the next chat reference. *)
Theorem bad_configuration_aborts_only_that_chat
    (category mode : pystr) (limit : option Z) :
  (mode = mode_count /\ limit = None)
  \/ mode ∉ [mode_last_saved; mode_today; mode_all; mode_count] ->
  (forall (files : fs) (src : source) (chat_title : option pystr) (count : Z),
      exists msg,
        parse_messages ROOT_MESSAGES_DIR files src chat_title category mode limit count
        = (ValueError msg, count, []))
  /\ (forall (c : chat) (rest : list chat) (st : batch_state),
        process_chats ROOT_MESSAGES_DIR category mode limit (c :: rest) st
        = process_chats ROOT_MESSAGES_DIR category mode limit rest
            (log (LogError "process_chat_file" (chat_link c)) st)).
Proof.
  intros Hbad.
  assert (forall (files : fs) (src : source) (chat_title : option pystr) (count : Z),
             exists msg,
               parse_messages ROOT_MESSAGES_DIR files src chat_title category
                              mode limit count
               = (ValueError msg, count, [])) as Hraise.
  { intros files src chat_title count.
    destruct (determine_mode_rejects files
                (get_chat_file_path ROOT_MESSAGES_DIR category
                                    (default (py "chat") chat_title))
                mode limit (today_start (source_stream src)) Hbad) as [msg Hmsg].
    exists msg. destruct src; cbn [parse_messages source_stream] in *; by rewrite Hmsg. }
  split; [exact Hraise|].
  intros c rest st. unfold process_chats. cbn [foldl]. f_equal.
  unfold process_chat.
  destruct (resolve c) as [[title|]| |]; try reflexivity.
  destruct (Hraise (b_files st) (chat_source c) (Some title) (b_request_count st))
    as [msg ->].
  unfold log. by rewrite app_nil_l.
Qed.

End Configuration.

Lemma bad_configuration_aborts_only_that_chat_witness :
  (exists msg,
      FetchScenario.fetch Scenario.archive_1000 FetchScenario.plain mode_count None
      = (ValueError msg, 0%Z, []))
  /\ process_chats (H := FixedMoscow.time_lib) Scenario.root Scenario.category
       mode_count None [FetchScenario.daily_news; FetchScenario.daily_news]
       FetchScenario.fresh_batch
     = process_chats (H := FixedMoscow.time_lib) Scenario.root Scenario.category
         mode_count None [FetchScenario.daily_news]
         (log (LogError "process_chat_file" (chat_link FetchScenario.daily_news))
              FetchScenario.fresh_batch).
Proof.
  destruct (bad_configuration_aborts_only_that_chat (H := FixedMoscow.time_lib)
              Scenario.root Scenario.category mode_count None
              (or_introl (conj eq_refl eq_refl))) as [Hraise Hnext].
  split.
  - apply Hraise.
  - apply Hnext.
Defined.


(** * Further properties of the code *)

(** ** X1: sanitizing a sanitized title *)

Lemma replace_char_absent (a b : N) (s : pystr) :
  (forall c, c ∈ s -> c <> a) -> replace_char a b s = s.
Proof.
  induction s as [|c s IH]; intros Hs; [reflexivity|].
  unfold replace_char in *. cbn [map].
  rewrite (proj2 (N.eqb_neq c a)) by (apply Hs; by left).
  f_equal. apply IH. intros d Hd. apply Hs. by right.
Qed.

Lemma re_sub_invalid_clean_id (s : pystr) :
  (forall c, c ∈ s -> is_invalid_char c = false) -> re_sub_invalid s = s.
Proof.
  induction s as [|c s IH]; intros Hs; [reflexivity|].
  unfold re_sub_invalid in *. cbn [map].
  rewrite (Hs c) by (by left).
  f_equal. apply IH. intros d Hd. apply Hs. by right.
Qed.

Lemma sanitized_title_elem (chat_title : pystr) (c : N) :
  c ∈ sanitize_filename (replace_char space underscore chat_title) ->
  is_invalid_char c = false /\ c <> space.
Proof.
  unfold sanitize_filename, rstrip_char, strip. intros Hc.
  apply rstrip_by_elem, rstrip_by_elem, lstrip_by_elem in Hc.
  split; [by eapply re_sub_invalid_clean|].
  unfold re_sub_invalid, replace_char in Hc.
  apply list_elem_of_fmap in Hc as (a & -> & Ha).
  apply list_elem_of_fmap in Ha as (a0 & -> & _).
  destruct (a0 =? space)%N eqn:Hsp.
  - by vm_compute.
  - destruct (is_invalid_char a0); [by vm_compute|].
    by apply N.eqb_neq.
Qed.

Lemma lstrip_by_length p (s : pystr) : length (lstrip_by p s) <= length s.
Proof.
  induction s as [|c s IH]; simpl; [lia|]. destruct (p c); simpl; lia.
Qed.

Lemma rstrip_by_length p (s : pystr) : length (rstrip_by p s) <= length s.
Proof.
  unfold rstrip_by. rewrite length_rev.
  etrans; [apply lstrip_by_length|]. by rewrite length_rev.
Qed.

Lemma rstrip_by_shorter p (s : pystr) (c : N) :
  last s = Some c -> p c = true -> length (rstrip_by p s) < length s.
Proof.
  intros Hlast Hp. unfold rstrip_by. rewrite length_rev.
  rewrite <- (rev_involutive s), last_rev_head in Hlast.
  rewrite <- (length_rev s).
  destruct (rev s) as [|a r]; [discriminate|].
  injection Hlast as ->. cbn [lstrip_by]. rewrite Hp.
  pose proof (lstrip_by_length p r). simpl. lia.
Qed.


(** X1: sanitizing the sanitized title once more, as [process_chat_file]
    does before it asks for the path to save to, gives the same name
    exactly when the name does not end in whitespace; the path saved to is
    then the path [parse_messages] read the last date from. *)
Theorem sanitize_again_same_name (root category chat_title : pystr) :
  let name := sanitize_filename (replace_char space underscore chat_title) in
  (sanitize_filename (replace_char space underscore name) = name
   <-> forall c, last name = Some c -> isspace c = false)
  /\ (sanitize_filename (replace_char space underscore name) = name ->
      get_chat_file_path root category name
      = get_chat_file_path root category chat_title).
Proof.
  intros name.
  assert (replace_char space underscore name = name) as Hreplace.
  { apply replace_char_absent. intros c Hc.
    by apply (sanitized_title_elem chat_title) in Hc as [_ Hc]. }
  assert (re_sub_invalid name = name) as Hsub.
  { apply re_sub_invalid_clean_id. intros c Hc.
    by apply (sanitized_title_elem chat_title) in Hc as [Hc _]. }
  assert (lstrip_by isspace name = name) as Hleft.
  { apply lstrip_by_keep. intros c Hc. subst name.
    unfold sanitize_filename, rstrip_char, strip in Hc.
    apply rstrip_by_head, rstrip_by_head in Hc. by apply lstrip_by_head in Hc. }
  assert (forall c, last name = Some c -> (dot =? c)%N = false) as Hdot.
  { intros c Hc. subst name. unfold sanitize_filename, rstrip_char in Hc.
    by apply rstrip_by_last in Hc. }
  split; [split|].
  - intros Hfix c Hc.
    destruct (isspace c) eqn:Hsp; [|reflexivity]. exfalso.
    pose proof (rstrip_by_shorter isspace name c Hc Hsp) as Hshort.
    rewrite Hreplace in Hfix. unfold sanitize_filename in Hfix.
    rewrite Hsub in Hfix. unfold strip, rstrip_char in Hfix. rewrite Hleft in Hfix.
    pose proof (rstrip_by_length (N.eqb dot) (rstrip_by isspace name)) as Hlen.
    rewrite Hfix in Hlen. lia.
  - intros Hnospace. rewrite Hreplace. unfold sanitize_filename.
    rewrite Hsub. unfold strip, rstrip_char. rewrite Hleft.
    rewrite (rstrip_by_keep isspace name Hnospace).
    by apply rstrip_by_keep.
  - intros Hfix. unfold get_chat_file_path. by rewrite Hfix.
Qed.

Lemma sanitize_again_same_name_witness :
  get_chat_file_path Scenario.root Scenario.category
    (sanitize_filename (replace_char space underscore Scenario.title))
  = Scenario.archive_path.
Proof.
  apply (proj2 (sanitize_again_same_name Scenario.root Scenario.category
                  Scenario.title)).
  vm_compute. reflexivity.
Defined.

(** For the title "a<TAB>." the two paths differ: the date is read from
    "a<TAB>.json" and the archive is saved to "a.json". *)
Example read_and_save_paths_differ :
  get_chat_file_path [] []
    (sanitize_filename (replace_char space underscore title_a_tab_dot))
  <> get_chat_file_path [] [] title_a_tab_dot.
Proof. vm_compute. discriminate. Qed.

(** ** X2: the request counter and its pauses *)

Lemma count_events_app p (evs1 evs2 : list event) :
  count_events p (evs1 ++ evs2) = (count_events p evs1 + count_events p evs2)%Z.
Proof.
  unfold count_events. rewrite List.filter_app, length_app. lia.
Qed.

Lemma check_request_limit_step (count : Z) :
  (0 <= count < request_limit)%Z ->
  let '(count', evs) := check_request_limit count in
  (0 <= count' < request_limit)%Z
  /\ count' = ((count + 1) mod request_limit)%Z
  /\ count_events is_pause evs = ((count + 1) / request_limit)%Z
  /\ count_events is_delay evs = 0%Z
  /\ Z.of_nat (length evs) = count_events is_pause evs.
Proof.
  unfold check_request_limit, request_limit. intros Hc.
  destruct (5000 <=? count + 1)%Z eqn:Hle.
  - apply Z.leb_le in Hle. assert (count + 1 = 5000)%Z as -> by lia.
    repeat split; try reflexivity; lia.
  - apply Z.leb_gt in Hle.
    rewrite Z.mod_small, Z.div_small by lia.
    repeat split; try reflexivity; lia.
Qed.

Section RequestCounter.
Context `{TimeLib}.

(** X2: starting from a counter below the limit of 5000, the loop of
    [parse_messages] sleeps a random delay once for every item it takes
    from the iterator and nothing else happens but three-second pauses; if
    it takes [k] items from a counter [count], it pauses
    [(count + k) / 5000] times and leaves the counter at
    [(count + k) mod 5000]: a pause at every 5000th request, counted across
    calls. *)
Theorem paginate_request_counter
    (mode : pystr) (ts : Z) (last_date limit : option Z)
    (remaining : list (option message)) :
  forall (acc : list record) (count message_count : Z),
    (0 <= count < request_limit)%Z ->
    let st := paginate mode ts last_date limit remaining acc count message_count in
    let k := count_events is_delay (loop_events st) in
    let pauses := count_events is_pause (loop_events st) in
    (k <= Z.of_nat (length remaining))%Z
    /\ (broke st = false -> k = Z.of_nat (length remaining))
    /\ request_count st = ((count + k) mod request_limit)%Z
    /\ pauses = ((count + k) / request_limit)%Z
    /\ Z.of_nat (length (loop_events st)) = (k + pauses)%Z.
Proof.
  induction remaining as [|message remaining IH]; intros acc count n Hcount.
  - cbn. rewrite Z.add_0_r, Z.mod_small, Z.div_small by exact Hcount.
    repeat split; reflexivity || lia.
  - cbn [paginate].
    pose proof (check_request_limit_step count Hcount) as Hstep.
    destruct (check_request_limit count) as [count1 evs1].
    destruct Hstep as (Hcount1 & Hmod & Hpause & Hdelay & Hlen).
    assert (count + 1 = count1 + ((count + 1) / request_limit) * request_limit)%Z
      as Hsplit.
    { pose proof (Z.div_mod (count + 1) request_limit ltac:(discriminate)).
      rewrite <- Hmod in *. lia. }
    set (brk acc' := {| messages_data := acc'; request_count := count1;
                        loop_events := evs1 ++ random_delay; broke := true |}).
    set (cont acc' n' :=
           let st := paginate mode ts last_date limit remaining acc' count1 n' in
           {| messages_data := messages_data st; request_count := request_count st;
              loop_events := (evs1 ++ random_delay) ++ loop_events st;
              broke := broke st |}).
    assert (forall acc',
               let st := brk acc' in
               let k := count_events is_delay (loop_events st) in
               let pauses := count_events is_pause (loop_events st) in
               (k <= Z.of_nat (length (message :: remaining)))%Z
               /\ (broke st = false -> k = Z.of_nat (length (message :: remaining)))
               /\ request_count st = ((count + k) mod request_limit)%Z
               /\ pauses = ((count + k) / request_limit)%Z
               /\ Z.of_nat (length (loop_events st)) = (k + pauses)%Z) as Hbrk.
    { intros acc'. cbn [brk loop_events request_count broke].
      rewrite !count_events_app, Hdelay, Hpause, length_app, Nat2Z.inj_add, Hlen.
      change (count_events is_delay random_delay) with 1%Z.
      change (count_events is_pause random_delay) with 0%Z.
      change (Z.of_nat (length random_delay)) with 1%Z.
      rewrite Z.add_0_l, Z.add_0_r.
      repeat split; try discriminate; try lia.
      cbn [length]. lia. }
    assert (forall acc' n',
               let st := cont acc' n' in
               let k := count_events is_delay (loop_events st) in
               let pauses := count_events is_pause (loop_events st) in
               (k <= Z.of_nat (length (message :: remaining)))%Z
               /\ (broke st = false -> k = Z.of_nat (length (message :: remaining)))
               /\ request_count st = ((count + k) mod request_limit)%Z
               /\ pauses = ((count + k) / request_limit)%Z
               /\ Z.of_nat (length (loop_events st)) = (k + pauses)%Z) as Hcont.
    { intros acc' n'. cbn [cont loop_events request_count broke].
      destruct (IH acc' count1 n' Hcount1) as (Hk & Hend & Hreq & Hp & Hl).
      cbv zeta in Hk, Hend, Hreq, Hp, Hl.
      set (st := paginate mode ts last_date limit remaining acc' count1 n') in *.
      rewrite !count_events_app, Hdelay, Hpause, !length_app, !Nat2Z.inj_add, Hlen.
      change (count_events is_delay random_delay) with 1%Z.
      change (count_events is_pause random_delay) with 0%Z.
      change (Z.of_nat (length random_delay)) with 1%Z.
      rewrite Z.add_0_l, Z.add_0_r.
      set (k' := count_events is_delay (loop_events st)) in *.
      replace (count + (1 + k'))%Z
        with (count1 + k' + (count + 1) / request_limit * request_limit)%Z by lia.
      rewrite Z_mod_plus_full, Z_div_plus_full by discriminate.
      repeat split.
      - cbn [length]. lia.
      - intros Hb. specialize (Hend Hb). cbn [length]. lia.
      - exact Hreq.
      - rewrite Hp. lia.
      - rewrite Hl, Hpause. lia. }
    destruct message as [m|]; [|apply Hcont].
    destruct (msg_date m) as [d|]; [|apply Hcont].
    destruct (stop_before mode ts last_date d); [apply Hbrk|].
    destruct (msg_sender m) as [s|]; [|apply Hcont].
    destruct (limit_reached limit (n + 1)); [apply Hbrk | apply Hcont].
Qed.

End RequestCounter.

Lemma paginate_request_counter_witness :
  request_count
    (paginate (H := FixedMoscow.time_lib) mode_all 0 None None
       (items Scenario.newest_first) [] 4998 0) = 1%Z
  /\ count_events is_pause
       (loop_events (paginate (H := FixedMoscow.time_lib) mode_all 0 None None
                       (items Scenario.newest_first) [] 4998 0)) = 1%Z.
Proof.
  destruct (paginate_request_counter (H := FixedMoscow.time_lib) mode_all 0 None None
              (items Scenario.newest_first) [] 4998 0 ltac:(unfold request_limit; lia))
    as (_ & Hall & Hreq & Hpauses & _).
  cbv zeta in Hall, Hreq, Hpauses.
  rewrite (Hall ltac:(vm_compute; reflexivity)) in Hreq, Hpauses.
  split; [exact Hreq | exact Hpauses].
Defined.

(** ** The archive store: sorting, saving, reading back *)

Section ArchiveFacts.
Context `{TimeLib}.

Lemma with_keys_inv (l : list json) (kl : list (Z * json)) :
  with_keys l = Some kl ->
  Forall dated l /\ kl.*2 = l
  /\ Forall (fun kx => date_key kx.2 = Some kx.1) kl.
Proof.
  revert kl. induction l as [|x l IH]; intros kl Hkl.
  - injection Hkl as <-. by repeat split.
  - cbn [with_keys] in Hkl.
    destruct (date_key x) as [k|] eqn:Hk; [|discriminate].
    destruct (with_keys l) as [kl'|]; [|discriminate].
    injection Hkl as <-.
    destruct (IH kl' eq_refl) as (Hl & Hsnd & Hkeys).
    split; [constructor; [by exists k | exact Hl]|].
    split; [rewrite fmap_cons; by rewrite Hsnd | by constructor].
Qed.

Lemma sort_by_date_inv (l sorted : list json) :
  sort_by_date l = Some sorted ->
  Forall dated l /\ sorted ≡ₚ l /\ Sorted date_le sorted.
Proof.
  intros Hsort.
  assert (Forall dated l) as Hl.
  { unfold sort_by_date in Hsort.
    destruct (with_keys l) as [kl|] eqn:Hkl; [|discriminate].
    by apply with_keys_inv in Hkl as [? _]. }
  split; [exact Hl|].
  destruct (sort_by_date_dated l Hl) as (s & Hs & Hperm & Hsorted).
  rewrite Hs in Hsort. injection Hsort as <-. by split.
Qed.

Lemma sort_by_date_undated (l : list json) :
  sort_by_date l = None <-> ~ Forall dated l.
Proof.
  split.
  - intros Hnone Hl.
    destruct (sort_by_date_dated l Hl) as (s & Hs & _). congruence.
  - intros Hl. destruct (sort_by_date l) as [s|] eqn:Hs; [|reflexivity].
    by apply sort_by_date_inv in Hs as [? _].
Qed.

Lemma date_le_refl (x : json) : dated x -> date_le x x.
Proof. intros [k Hk]. exists k, k. by repeat split. Qed.

Lemma date_le_trans (x y z : json) : date_le x y -> date_le y z -> date_le x z.
Proof.
  intros (kx & ky & Hx & Hy & Hxy) (ky' & kz & Hy' & Hz & Hyz).
  rewrite Hy in Hy'. injection Hy' as <-.
  exists kx, kz. repeat split; try done. lia.
Qed.

(** In a sorted list of dated values the last one is the latest. *)
Lemma sorted_last_latest (l : list json) (x : json) :
  Sorted date_le l -> Forall dated l -> last l = Some x ->
  forall y, y ∈ l -> date_le y x.
Proof.
  induction 1 as [|y0 l Hsorted IH Hhd]; intros Hdated Hlast y Hy.
  - by apply elem_of_nil in Hy.
  - inversion Hdated as [|? ? Hy0 Hl]; subst.
    destruct l as [|y1 l'].
    + injection Hlast as <-. apply list_elem_of_singleton in Hy as ->.
      by apply date_le_refl.
    + change (last (y1 :: l') = Some x) in Hlast.
      apply elem_of_cons in Hy as [->|Hy]; [|by apply IH].
      inversion Hhd as [|? ? Hle]; subst.
      eapply date_le_trans; [exact Hle|]. apply IH; try done. by left.
Qed.

Lemma date_key_inv (x : json) (t : Z) :
  date_key x = Some t ->
  exists members s,
    x = JObj members /\ dict_get (py "date") members = Some (JStr s)
    /\ parse_moscow_time s = Some t.
Proof.
  destruct x as [ | | | | |members]; try discriminate. cbn [date_key].
  destruct (dict_get (py "date") members) as [[ | | |s| | ]|] eqn:Hget;
    try discriminate.
  intros Hparse. by exists members, s.
Qed.

(** [get_last_message_date] on a file that decodes to an array: the date of
    its last entry. *)
Lemma get_last_message_date_array (files : fs) (file_path : pystr)
    (lines : list pystr) (entries : list json) (x : json) (t : Z) :
  parse_moscow_time [] = None ->
  files !! file_path = Some (Text lines (Some (JArr entries))) ->
  last entries = Some x -> date_key x = Some t ->
  get_last_message_date files file_path = (Some t, []).
Proof.
  intros Hempty Hfile Hlast (members & s & -> & Hget & Hparse)%date_key_inv.
  unfold get_last_message_date. rewrite Hfile, Hlast, Hget.
  cbn [from_option]. unfold Datatypes.id. cbn [truthy].
  rewrite bool_decide_eq_false_2 by (intros ->; congruence).
  cbn [negb]. by rewrite Hparse.
Qed.

(** The first step of [save_messages]: the new messages, sorted. *)
Lemma save_messages_first_sort (messages : list json) :
  Forall dated messages ->
  exists sorted,
    (if bool_decide (messages = []) then Some messages else sort_by_date messages)
    = Some sorted
    /\ sorted ≡ₚ messages /\ Sorted date_le sorted.
Proof.
  intros Hdated. case_bool_decide as Hnil.
  - subst. exists []. repeat split; constructor.
  - destruct (sort_by_date_dated messages Hdated) as (s & Hs & Hp & Hsorted).
    by exists s.
Qed.

(** [save_messages] once the directory is there and its first sort has
    succeeded. *)
Lemma save_messages_after_sort (messages sorted : list json) (file_path : pystr)
    (append : bool) (files : fs) :
  dirname file_path <> [] -> names_directory file_path = false ->
  (if bool_decide (messages = []) then Some messages else sort_by_date messages)
  = Some sorted ->
  save_messages messages file_path append files
  = let overwrite := <[file_path := write_json (JArr sorted)]> files in
    let fallback := Some (overwrite, [LogError "save_messages" file_path]) in
    if append && bool_decide (is_Some (files !! file_path)) then
      match files !! file_path with
      | Some (Text _ value) =>
          match default (JArr []) value with
          | JArr existing_messages =>
              match sort_by_date (existing_messages ++ sorted) with
              | Some all_messages =>
                  Some (<[file_path := write_json (JArr all_messages)]> files, [])
              | None => fallback
              end
          | _ => fallback
          end
      | _ => fallback
      end
    else Some (overwrite, []).
Proof.
  intros Hdir Hname Hfirst. rewrite save_messages_in_directory by done.
  by rewrite Hfirst.
Qed.

(** Whatever it finds at a path with a directory part and a file name,
    [save_messages] with dated messages writes an array, sorted, that holds
    every new message. *)
Lemma save_messages_written (messages : list json) (file_path : pystr)
    (append : bool) (files : fs) :
  dirname file_path <> [] -> names_directory file_path = false ->
  Forall dated messages ->
  exists written evs,
    save_messages messages file_path append files
    = Some (<[file_path := write_json (JArr written)]> files, evs)
    /\ Sorted date_le written /\ Forall dated written
    /\ (forall x, x ∈ messages -> x ∈ written).
Proof.
  intros Hdir Hname Hdated.
  destruct (save_messages_first_sort messages Hdated)
    as (sorted & Hfirst & Hperm & Hsorted).
  assert (Forall dated sorted) as Hsd by (by rewrite Hperm).
  assert (forall x, x ∈ messages -> x ∈ sorted) as Hin.
  { intros x Hx. by rewrite Hperm. }
  rewrite (save_messages_after_sort _ _ _ _ _ Hdir Hname Hfirst). cbv zeta.
  assert (forall existing,
             match sort_by_date (existing ++ sorted) with
             | Some all_messages =>
                 Some (<[file_path := write_json (JArr all_messages)]> files, [])
             | None =>
                 Some (<[file_path := write_json (JArr sorted)]> files,
                       [LogError "save_messages" file_path])
             end
             = Some (<[file_path := write_json (JArr sorted)]> files,
                     [LogError "save_messages" file_path])
             \/ exists all_messages,
                  match sort_by_date (existing ++ sorted) with
                  | Some all_messages =>
                      Some (<[file_path := write_json (JArr all_messages)]> files, [])
                  | None =>
                      Some (<[file_path := write_json (JArr sorted)]> files,
                            [LogError "save_messages" file_path])
                  end
                  = Some (<[file_path := write_json (JArr all_messages)]> files, [])
                  /\ Sorted date_le all_messages /\ Forall dated all_messages
                  /\ (forall x, x ∈ messages -> x ∈ all_messages)) as Hmerge.
  { intros existing.
    destruct (sort_by_date (existing ++ sorted)) as [all_messages|] eqn:Hall;
      [|by left].
    right. exists all_messages.
    apply sort_by_date_inv in Hall as (Hd & Hp & Hs).
    split; [reflexivity|]. split; [exact Hs|].
    split; [by rewrite Hp|].
    intros x Hx. rewrite Hp. apply elem_of_app. right. by apply Hin. }
  destruct (append && bool_decide (is_Some (files !! file_path)));
    [|by exists sorted, []].
  destruct (files !! file_path) as [[lines value|]|];
    [|by exists sorted, [LogError "save_messages" file_path]
     |by exists sorted, [LogError "save_messages" file_path]].
  destruct (default (JArr []) value) as [ | b | z | s | existing | f];
    try (by exists sorted, [LogError "save_messages" file_path]).
  destruct (Hmerge existing) as [->|(all_messages & -> & Hs & Hd & Hx)].
  - by exists sorted, [LogError "save_messages" file_path].
  - by exists all_messages, [].
Qed.

Lemma last_date_of_saved (messages : list json) (file_path : pystr)
    (append : bool) (files files' : fs) (evs : list event) :
  parse_moscow_time [] = None ->
  messages <> [] ->
  save_messages messages file_path append files = Some (files', evs) ->
  exists (written : list json) (T : Z),
    files' !! file_path = Some (write_json (JArr written))
    /\ get_last_message_date files' file_path = (Some T, [])
    /\ (forall x, x ∈ written -> exists t, date_key x = Some t /\ (t <= T)%Z)
    /\ (forall x, x ∈ messages -> x ∈ written).
Proof.
  intros Hempty Hnonempty Hsave.
  destruct (save_messages_returned _ _ _ _ _ Hsave) as [Hdir Hname].
  assert (Forall dated messages) as Hdated.
  { rewrite save_messages_in_directory in Hsave by done.
    apply bind_Some in Hsave as (sorted & Hfirst & _).
    rewrite bool_decide_eq_false_2 in Hfirst by done.
    by apply sort_by_date_inv in Hfirst as [? _]. }
  destruct (save_messages_written messages file_path append files Hdir Hname Hdated)
    as (written & evs' & Hsave' & Hsorted & Hwd & Hin).
  rewrite Hsave in Hsave'. injection Hsave' as -> ->.
  destruct (last written) as [x|] eqn:Hlast.
  2:{ apply last_None in Hlast. subst written.
      destruct messages as [|m ms]; [done|].
      specialize (Hin m ltac:(by left)). by apply elem_of_nil in Hin. }
  assert (dated x) as [T HT].
  { apply (proj1 (Forall_forall _ _) Hwd). by apply last_Some_elem_of. }
  exists written, T.
  split; [apply lookup_insert_eq|]. split; [|split; [|exact Hin]].
  - eapply get_last_message_date_array; try done. apply lookup_insert_eq.
  - intros y Hy.
    destruct (sorted_last_latest written x Hsorted Hwd Hlast y Hy)
      as (ky & kx & Hky & Hkx & Hle).
    rewrite HT in Hkx. injection Hkx as <-. by exists ky.
Qed.

(** X3: once [save_messages] has returned, [get_last_message_date] reads
    from the file the latest timestamp of all the entries it holds, which is
    not earlier than the timestamp of any message just saved: this is the
    boundary the next run resumes from. *)
Theorem last_date_after_save (messages : list json) (file_path : pystr)
    (append : bool) (files files' : fs) (evs : list event) :
  parse_moscow_time [] = None ->
  messages <> [] ->
  save_messages messages file_path append files = Some (files', evs) ->
  exists (written : list json) (T : Z),
    files' !! file_path = Some (write_json (JArr written))
    /\ get_last_message_date files' file_path = (Some T, [])
    /\ (forall x, x ∈ written -> exists t, date_key x = Some t /\ (t <= T)%Z)
    /\ (forall x, x ∈ messages -> x ∈ written).
Proof. apply last_date_of_saved. Qed.

End ArchiveFacts.

Lemma last_date_after_save_witness :
  exists (written : list json) (T : Z),
    (<[Scenario.archive_path :=
         write_json (JArr [record_json (Scenario.record_at Scenario.at_1000 "first");
                           record_json (Scenario.record_at Scenario.at_1100 "second");
                           record_json (Scenario.record_at Scenario.at_1200 "third")])]>
       Scenario.archive_1000) !! Scenario.archive_path
    = Some (write_json (JArr written))
    /\ get_last_message_date (H := FixedMoscow.time_lib)
         (<[Scenario.archive_path :=
              write_json (JArr [record_json (Scenario.record_at Scenario.at_1000 "first");
                                record_json (Scenario.record_at Scenario.at_1100 "second");
                                record_json (Scenario.record_at Scenario.at_1200 "third")])]>
            Scenario.archive_1000) Scenario.archive_path
       = (Some T, [])
    /\ (forall x, x ∈ written ->
          exists t, date_key (H := FixedMoscow.time_lib) x = Some t /\ (t <= T)%Z)
    /\ (forall x,
          x ∈ [record_json (Scenario.record_at Scenario.at_1200 "third");
               record_json (Scenario.record_at Scenario.at_1100 "second")] ->
          x ∈ written).
Proof.
  apply (last_date_after_save (H := FixedMoscow.time_lib)
           [record_json (Scenario.record_at Scenario.at_1200 "third");
            record_json (Scenario.record_at Scenario.at_1100 "second")]
           Scenario.archive_path true Scenario.archive_1000 _ []).
  - vm_compute. reflexivity.
  - discriminate.
  - vm_compute. reflexivity.
Defined.

Section SortStability.
Context `{TimeLib}.

Lemma insert_by_key_filter (t : Z) (kx : Z * json) (l : list (Z * json)) :
  filter (fun k : Z * json => k.1 = t) (insert_by_key kx l)
  = filter (fun k : Z * json => k.1 = t) (kx :: l).
Proof.
  induction l as [|ky l IH]; [reflexivity|].
  cbn [insert_by_key].
  destruct (kx.1 <=? ky.1)%Z eqn:Hle; [reflexivity|].
  apply Z.leb_gt in Hle.
  rewrite (filter_cons _ ky), IH, !(filter_cons _ kx), (filter_cons _ ky).
  repeat case_decide; try reflexivity; lia.
Qed.

Lemma sort_keyed_filter (t : Z) (l : list (Z * json)) :
  filter (fun k : Z * json => k.1 = t) (sort_keyed l)
  = filter (fun k : Z * json => k.1 = t) l.
Proof.
  induction l as [|kx l IH]; [reflexivity|].
  cbn [sort_keyed foldr]. fold (sort_keyed l).
  rewrite insert_by_key_filter, !(filter_cons _ kx), IH. reflexivity.
Qed.

Lemma filter_keyed_values (t : Z) (kl : list (Z * json)) :
  Forall (fun kx => date_key kx.2 = Some kx.1) kl ->
  filter (fun x => date_key x = Some t) (kl.*2)
  = (filter (fun k : Z * json => k.1 = t) kl).*2.
Proof.
  induction 1 as [|kx kl Hkx Hkl IH]; [reflexivity|].
  rewrite fmap_cons, !filter_cons, IH.
  repeat case_decide; try reflexivity; congruence.
Qed.

(** Sorting keeps the order of the entries that carry the same timestamp. *)
Lemma sort_by_date_stable (l sorted : list json) (t : Z) :
  sort_by_date l = Some sorted ->
  filter (fun x => date_key x = Some t) sorted
  = filter (fun x => date_key x = Some t) l.
Proof.
  unfold sort_by_date. intros Hsort.
  destruct (with_keys l) as [kl|] eqn:Hkl; [|discriminate].
  injection Hsort as <-.
  apply with_keys_inv in Hkl as (_ & Hsnd & Hkeys).
  rewrite filter_keyed_values by (by rewrite sort_keyed_perm).
  rewrite sort_keyed_filter, <- filter_keyed_values by done.
  by rewrite Hsnd.
Qed.

(** X4: [merge_and_sort_messages] on dated entries returns all of them, the
    old and the new, in ascending order of timestamp, and the sort is
    stable: among the entries of one timestamp the old ones come first, then
    the new ones, each group in the order it had. *)
Theorem merge_and_sort_stable (existing_messages new_messages : list json) :
  Forall dated existing_messages -> Forall dated new_messages ->
  exists combined,
    merge_and_sort_messages existing_messages new_messages = Some combined
    /\ combined ≡ₚ existing_messages ++ new_messages
    /\ Sorted date_le combined
    /\ forall t,
         filter (fun x => date_key x = Some t) combined
         = filter (fun x => date_key x = Some t) existing_messages
           ++ filter (fun x => date_key x = Some t) new_messages.
Proof.
  intros Hexisting Hnew.
  assert (Forall dated (existing_messages ++ new_messages)) as Hall
    by (apply Forall_app; by split).
  destruct (sort_by_date_dated _ Hall) as (combined & Hsort & Hperm & Hsorted).
  exists combined. unfold merge_and_sort_messages.
  repeat split; try done.
  intros t. rewrite (sort_by_date_stable _ _ t Hsort). apply filter_app.
Qed.

End SortStability.

Lemma merge_and_sort_stable_witness :
  exists combined,
    merge_and_sort_messages (H := FixedMoscow.time_lib)
      [record_json (Scenario.record_at Scenario.at_1000 "old one");
       record_json (Scenario.record_at Scenario.at_1100 "old two")]
      [record_json (Scenario.record_at Scenario.at_1100 "new two");
       record_json (Scenario.record_at Scenario.at_1000 "new one")]
    = Some combined
    /\ combined ≡ₚ
         [record_json (Scenario.record_at Scenario.at_1000 "old one");
          record_json (Scenario.record_at Scenario.at_1100 "old two")]
         ++ [record_json (Scenario.record_at Scenario.at_1100 "new two");
             record_json (Scenario.record_at Scenario.at_1000 "new one")]
    /\ Sorted (date_le (H := FixedMoscow.time_lib)) combined
    /\ forall t,
         filter (fun x => date_key (H := FixedMoscow.time_lib) x = Some t) combined
         = filter (fun x => date_key (H := FixedMoscow.time_lib) x = Some t)
             [record_json (Scenario.record_at Scenario.at_1000 "old one");
              record_json (Scenario.record_at Scenario.at_1100 "old two")]
           ++ filter (fun x => date_key (H := FixedMoscow.time_lib) x = Some t)
                [record_json (Scenario.record_at Scenario.at_1100 "new two");
                 record_json (Scenario.record_at Scenario.at_1000 "new one")].
Proof.
  apply (merge_and_sort_stable (H := FixedMoscow.time_lib)
           [record_json (Scenario.record_at Scenario.at_1000 "old one");
            record_json (Scenario.record_at Scenario.at_1100 "old two")]
           [record_json (Scenario.record_at Scenario.at_1100 "new two");
            record_json (Scenario.record_at Scenario.at_1000 "new one")]).
  - repeat constructor; vm_compute; by eexists.
  - repeat constructor; vm_compute; by eexists.
Defined.

(** Old entries before new ones, within a timestamp. *)
Example merge_and_sort_keeps_old_first :
  merge_and_sort_messages (H := FixedMoscow.time_lib)
    [record_json (Scenario.record_at Scenario.at_1000 "old one");
     record_json (Scenario.record_at Scenario.at_1100 "old two")]
    [record_json (Scenario.record_at Scenario.at_1100 "new two");
     record_json (Scenario.record_at Scenario.at_1000 "new one")]
  = Some [record_json (Scenario.record_at Scenario.at_1000 "old one");
          record_json (Scenario.record_at Scenario.at_1000 "new one");
          record_json (Scenario.record_at Scenario.at_1100 "old two");
          record_json (Scenario.record_at Scenario.at_1100 "new two")].
Proof. vm_compute. reflexivity. Qed.

Section SaveFacts.
Context `{TimeLib}.

Lemma with_keys_of_keyed (kl : list (Z * json)) :
  Forall (fun kx => date_key kx.2 = Some kx.1) kl ->
  with_keys (kl.*2) = Some kl.
Proof.
  induction 1 as [|[k x] kl Hkx Hkl IH]; [reflexivity|].
  rewrite fmap_cons. cbn [with_keys snd]. cbn [fst snd] in Hkx.
  by rewrite Hkx, IH.
Qed.

Lemma sort_keyed_sorted_id (kl : list (Z * json)) :
  Sorted (fun a b => (a.1 <= b.1)%Z) kl -> sort_keyed kl = kl.
Proof.
  induction 1 as [|kx kl Hsorted IH Hhd]; [reflexivity|].
  cbn [sort_keyed foldr]. fold (sort_keyed kl). rewrite IH.
  destruct Hhd as [|ky kl' Hle]; [reflexivity|].
  cbn [insert_by_key]. by rewrite (proj2 (Z.leb_le _ _) Hle).
Qed.

(** Sorting what has been sorted changes nothing. *)
Lemma sort_by_date_again (l sorted : list json) :
  sort_by_date l = Some sorted -> sort_by_date sorted = Some sorted.
Proof.
  unfold sort_by_date. intros Hsort.
  destruct (with_keys l) as [kl|] eqn:Hkl; [|discriminate].
  injection Hsort as <-.
  apply with_keys_inv in Hkl as (_ & _ & Hkeys).
  rewrite with_keys_of_keyed by (by rewrite sort_keyed_perm).
  cbn [mbind option_bind].
  by rewrite sort_keyed_sorted_id by apply sort_keyed_sorted.
Qed.

Lemma first_sort_again (messages sorted : list json) :
  (if bool_decide (messages = []) then Some messages else sort_by_date messages)
  = Some sorted ->
  sort_by_date sorted = Some sorted.
Proof.
  case_bool_decide as Hnil.
  - intros [= <-]. by subst.
  - apply sort_by_date_again.
Qed.


(** X6: appending to a file that cannot be used as an archive keeps none
    of it, at a path with a directory part and a file name as its last
    component.  If the file is not JSON the new messages, sorted, replace it
    and nothing is logged; if it is not UTF-8, or decodes to something that
    is not an array, or to an array with an entry whose date is missing or
    does not parse, they replace it as well and one error is logged. *)
Theorem save_append_replaces_unusable_archive
    (messages : list json) (file_path : pystr) (files : fs) :
  dirname file_path <> [] ->
  names_directory file_path = false ->
  Forall dated messages ->
  exists sorted,
    sorted ≡ₚ messages /\ Sorted date_le sorted
    /\ (forall lines,
          files !! file_path = Some (Text lines None) ->
          save_messages messages file_path true files
          = Some (<[file_path := write_json (JArr sorted)]> files, []))
    /\ (files !! file_path = Some Binary
        \/ (exists lines v,
              files !! file_path = Some (Text lines (Some v))
              /\ forall existing, v = JArr existing -> ~ Forall dated existing) ->
        save_messages messages file_path true files
        = Some (<[file_path := write_json (JArr sorted)]> files,
                [LogError "save_messages" file_path])).
Proof.
  intros Hdir Hname Hdated.
  destruct (save_messages_first_sort messages Hdated)
    as (sorted & Hfirst & Hperm & Hsorted).
  exists sorted. split; [exact Hperm|]. split; [exact Hsorted|].
  rewrite (save_messages_after_sort _ _ file_path true files Hdir Hname Hfirst).
  cbv zeta.
  split.
  - intros lines Hfile. rewrite Hfile.
    rewrite bool_decide_eq_true_2 by (by eexists).
    cbn [andb from_option app]. by rewrite (first_sort_again _ _ Hfirst).
  - intros [Hfile|(lines & v & Hfile & Hbad)]; rewrite Hfile;
      rewrite bool_decide_eq_true_2 by (by eexists); cbn [andb from_option];
      [reflexivity|].
    unfold Datatypes.id.
    destruct v as [ | b | z | s | existing | f]; try reflexivity.
    assert (sort_by_date (existing ++ sorted) = None) as ->; [|reflexivity].
    apply sort_by_date_undated. intros [Hexisting _]%Forall_app.
    by apply (Hbad existing).
Qed.


End SaveFacts.


Lemma save_append_replaces_unusable_archive_witness :
  save_messages (H := FixedMoscow.time_lib)
    [record_json (Scenario.record_at Scenario.at_1200 "third")]
    Scenario.archive_path true
    {[ Scenario.archive_path := write_json (JArr [JInt 1]) ]}
  = Some (<[Scenario.archive_path :=
              write_json (JArr [record_json (Scenario.record_at Scenario.at_1200 "third")])]>
            {[ Scenario.archive_path := write_json (JArr [JInt 1]) ]},
          [LogError "save_messages" Scenario.archive_path]).
Proof.
  destruct (save_append_replaces_unusable_archive (H := FixedMoscow.time_lib)
              [record_json (Scenario.record_at Scenario.at_1200 "third")]
              Scenario.archive_path
              {[ Scenario.archive_path := write_json (JArr [JInt 1]) ]})
    as (sorted & Hperm & _ & _ & Hbad).
  - vm_compute. discriminate.
  - vm_compute. reflexivity.
  - repeat constructor. vm_compute. by eexists.
  - apply Permutation_singleton_r in Hperm. subst sorted.
    apply Hbad. right.
    exists (dump_lines (JArr [JInt 1])), (JArr [JInt 1]).
    split; [vm_compute; reflexivity|].
    intros existing [= <-] Hdated.
    inversion Hdated as [|? ? [t Ht] _]; subst. discriminate Ht.
Defined.

(** ** The fetch engine: budget, modes, order *)

Section FetchMore.
Context `{TimeLib}.
Variable ROOT_MESSAGES_DIR : pystr.

Lemma paginate_budget (mode : pystr) (ts : Z) (last_date : option Z) (l : Z)
    (remaining : list (option message)) :
  forall (acc : list record) (count message_count : Z),
    (Z.of_nat (length (messages_data
                         (paginate mode ts last_date (Some l) remaining acc
                                   count message_count)))
     <= Z.of_nat (length acc) + Z.max 1 (l - message_count))%Z.
Proof.
  induction remaining as [|message remaining IH]; intros acc count n.
  - cbn. lia.
  - cbn [paginate]. destruct (check_request_limit count) as [count1 evs1].
    destruct message as [m|]; [|apply IH].
    destruct (msg_date m) as [d|]; [|apply IH].
    destruct (stop_before mode ts last_date d); [cbn; lia|].
    destruct (msg_sender m) as [s|]; [|apply IH].
    cbn [limit_reached messages_data].
    destruct (l <=? n + 1)%Z eqn:Hl.
    + cbn [messages_data]. destruct (worth_keeping _); cbn [length]; lia.
    + apply Z.leb_gt in Hl. cbn [messages_data].
      etrans; [apply IH|].
      destruct (worth_keeping _); cbn [length]; lia.
Qed.

(** The budget a call works with does not depend on the clock. *)
Lemma determine_mode_budget_any_day (files : fs) (file_path mode : pystr)
    (limit limit' last_date : option Z) (ts ts' : Z) (evs : list event) :
  determine_mode files file_path mode limit ts = Returned (last_date, limit', evs) ->
  exists last_date' evs',
    determine_mode files file_path mode limit ts' = Returned (last_date', limit', evs').
Proof.
  unfold determine_mode. intros Hmode.
  repeat case_bool_decide; try discriminate.
  - destruct (get_last_message_date files file_path) as [[T|] evs1];
      injection Hmode as _ <- _; eauto.
  - destruct (get_last_message_date files file_path) as [[T|] evs1].
    + destruct (ts <=? T)%Z; injection Hmode as _ <- _;
        destruct (ts' <=? T)%Z; eauto.
    + injection Hmode as _ <- _. eauto.
  - injection Hmode as _ <- _. eauto.
  - destruct (limit_missing limit); [discriminate|].
    destruct (get_last_message_date files file_path) as [last evs1].
    injection Hmode as _ <- _. eauto.
Qed.

(** X8: when the set-up of a call gives it a budget [l], be it the
    configured limit or the default of 5000, the call returns at most [l]
    records, and at most one when [l] is less than one; the calls that
    follow a rate-limit signal work with the same budget. *)
Theorem budget_bounds_returned_records
    (files : fs) (chat_title : option pystr) (category mode : pystr)
    (src : source) :
  forall (limit : option Z) (count : Z) (l ts : Z) (last_date : option Z)
         (evs : list event),
    determine_mode files
      (get_chat_file_path ROOT_MESSAGES_DIR category (default (py "chat") chat_title))
      mode limit ts
    = Returned (last_date, Some l, evs) ->
    (Z.of_nat (length (returned_records
                         (parse_messages ROOT_MESSAGES_DIR files src chat_title
                                         category mode limit count).1.1))
     <= Z.max 1 l)%Z.
Proof.
  set (file_path :=
         get_chat_file_path ROOT_MESSAGES_DIR category (default (py "chat") chat_title)).
  induction src as [s normally | s seconds next IH];
    intros limit count l ts last_date evs Hmode;
    destruct (determine_mode_budget_any_day _ _ _ _ _ _ _ (today_start s) _ Hmode)
      as (last_date' & evs' & Hmode');
    cbn [parse_messages source_stream]; fold file_path; rewrite Hmode';
    pose proof (paginate_budget mode (today_start s) last_date' l (items s) [] count 0)
      as Hbound;
    cbn [length] in Hbound; rewrite Z.sub_0_r in Hbound.
  - destruct (broke _); [exact Hbound|]. by destruct normally.
  - destruct (broke _); [exact Hbound|].
    specialize (IH (Some l)
                   (request_count (paginate mode (today_start s) last_date' (Some l)
                                            (items s) [] count 0))
                   l (today_start s) last_date' evs').
    rewrite (determine_mode_again _ _ _ _ _ _ _ _ Hmode' (today_start s)) in IH.
    specialize (IH Hmode').
    destruct (parse_messages _ _ next _ _ _ _ _) as [[res count'] evs''].
    exact IH.
Qed.

Lemma determine_mode_all (files : fs) (file_path : pystr) (limit : option Z) (ts : Z) :
  determine_mode files file_path mode_all limit ts = Returned (None, limit, []).
Proof. reflexivity. Qed.

(** X10: in the mode [all] the archive is not read: what a call returns,
    the counter it leaves and what it logs are the same whatever the files
    are. *)
Theorem mode_all_ignores_archive
    (files1 files2 : fs) (chat_title : option pystr) (category : pystr)
    (src : source) :
  forall (limit : option Z) (count : Z),
    parse_messages ROOT_MESSAGES_DIR files1 src chat_title category mode_all limit count
    = parse_messages ROOT_MESSAGES_DIR files2 src chat_title category mode_all limit count.
Proof.
  induction src as [s normally | s seconds next IH]; intros limit count;
    cbn [parse_messages]; rewrite !determine_mode_all; [reflexivity|].
  by rewrite IH.
Qed.

(** X11: every record a call returns carries the id of a sender, so that
    messages without a sender are never part of the result; and a record
    whose text is empty carries an id that is not zero. *)
Theorem returned_records_have_sender
    (files : fs) (src : source) (chat_title : option pystr)
    (category mode : pystr) (limit : option Z) (count : Z) :
  Forall (fun r => exists i, sender_id r = Some i /\ (text r = [] -> i <> 0%Z))
    (returned_records
       (parse_messages ROOT_MESSAGES_DIR files src chat_title category
                       mode limit count).1.1).
Proof.
  apply parse_messages_records.
  intros _ _ _ _ _ m d s _ _ _ _ _ Hkeep.
  exists (id s). split; [reflexivity|].
  intros Htext. unfold worth_keeping in Hkeep. rewrite Htext in Hkeep.
  cbn [sender_id message_record] in Hkeep.
  rewrite bool_decide_eq_true_2 in Hkeep by reflexivity.
  cbn [negb orb] in Hkeep. apply negb_true_iff in Hkeep. by apply Z.eqb_neq.
Qed.

End FetchMore.

Lemma budget_bounds_returned_records_witness :
  (Z.of_nat (length (returned_records
                       (FetchScenario.fetch ∅ FetchScenario.plain
                                            mode_last_saved None).1.1))
   <= Z.max 1 5000)%Z.
Proof.
  apply (budget_bounds_returned_records (H := FixedMoscow.time_lib) Scenario.root ∅
           (Some Scenario.title) Scenario.category mode_last_saved
           FetchScenario.plain None 0 5000 0 None []).
  vm_compute. reflexivity.
Defined.

Section FetchOrder.
Context `{TimeLib}.
Variable ROOT_MESSAGES_DIR : pystr.

(** As [parse_messages_records], with the stream a record comes from. *)
Lemma parse_messages_records_by_stream (P : record -> Prop) (files : fs)
    (chat_title : option pystr) (category mode : pystr) (src : source) :
  let file_path :=
    get_chat_file_path ROOT_MESSAGES_DIR category (default (py "chat") chat_title) in
  (forall s limit last_date limit' evs0 m d sd,
      s ∈ source_streams src ->
      determine_mode files file_path mode limit (today_start s)
      = Returned (last_date, limit', evs0) ->
      Some m ∈ items s -> msg_date m = Some d -> msg_sender m = Some sd ->
      stop_before mode (today_start s) last_date d = false ->
      worth_keeping (message_record d sd m) = true ->
      P (message_record d sd m)) ->
  forall (limit : option Z) (count : Z),
    Forall P (returned_records
                (parse_messages ROOT_MESSAGES_DIR files src chat_title category
                                mode limit count).1.1).
Proof.
  intros file_path.
  induction src as [s normally | s seconds next IH]; intros Hstep limit count;
    cbn [parse_messages source_stream]; fold file_path;
    (destruct (determine_mode files file_path mode limit (today_start s))
      as [[[last_date limit'] evs0]|msg] eqn:Hmode; [|constructor]);
    (assert (Forall P (messages_data
                         (paginate mode (today_start s) last_date limit' (items s)
                                   [] count 0))) as Hdata;
     [apply paginate_records; [|constructor];
      intros m d sd Hin; eapply Hstep; [by left | exact Hmode | exact Hin]|]).
  - destruct (broke _); [exact Hdata|]. by destruct normally.
  - destruct (broke _); [exact Hdata|].
    specialize (IH (fun s' limit last_date limit' evs0 m d sd Hs' =>
                      Hstep s' limit last_date limit' evs0 m d sd
                            (proj2 (elem_of_cons _ _ _) (or_intror Hs')))
                   limit'
                   (request_count (paginate mode (today_start s) last_date limit'
                                            (items s) [] count 0))).
    destruct (parse_messages _ _ next _ _ _ _ _) as [[res count'] evs']. exact IH.
Qed.

Lemma determine_mode_today (files : fs) (file_path : pystr)
    (limit : option Z) (ts : Z) :
  determine_mode files file_path mode_today limit ts
  = match get_last_message_date files file_path with
    | (Some T, evs) =>
        if (ts <=? T)%Z then Returned (Some T, limit, evs)
        else Returned (Some ts, limit, evs)
    | (None, evs) => Returned (Some ts, limit, evs)
    end.
Proof.
  unfold determine_mode.
  by destruct (get_last_message_date files file_path) as [[T|] evs].
Qed.

Lemma stop_before_today (ts : Z) (last_date : option Z) (d : Z) :
  stop_before mode_today ts last_date d
  = (d <? ts)%Z || reached_saved last_date d.
Proof. reflexivity. Qed.

(** X9: in the mode [today] every record a call returns carries the date
    of a message that is strictly later than the start of the day, as the
    clock gave it when the stream the message came from was opened, and
    strictly later than the last date of the archive when there is one. *)
Theorem today_returns_only_todays_news
    (files : fs) (src : source) (chat_title : option pystr) (category : pystr)
    (limit : option Z) (count : Z) :
  Forall (fun r =>
            exists d s,
              s ∈ source_streams src /\ date r = format_moscow_time d
              /\ (today_start s < d)%Z
              /\ forall T evs,
                   get_last_message_date files
                     (get_chat_file_path ROOT_MESSAGES_DIR category
                                         (default (py "chat") chat_title))
                   = (Some T, evs) ->
                   (T < d)%Z)
    (returned_records
       (parse_messages ROOT_MESSAGES_DIR files src chat_title category
                       mode_today limit count).1.1).
Proof.
  apply parse_messages_records_by_stream.
  intros s limit0 last_date limit' evs0 m d sd Hs Hmode _ _ _ Hstop _.
  rewrite stop_before_today in Hstop.
  apply orb_false_iff in Hstop as [Hday Hsaved]. apply Z.ltb_ge in Hday.
  rewrite determine_mode_today in Hmode.
  exists d, s. split; [exact Hs|]. split; [reflexivity|].
  destruct (get_last_message_date files _) as [[T|] evs1].
  - destruct (today_start s <=? T)%Z eqn:HT; injection Hmode as <- _ _;
      cbn [reached_saved] in Hsaved; apply Z.leb_gt in Hsaved.
    + apply Z.leb_le in HT. split; [lia|]. intros T' evs' [= <- _]. lia.
    + apply Z.leb_gt in HT. split; [lia|]. intros T' evs' [= <- _]. lia.
  - injection Hmode as <- _ _. cbn [reached_saved] in Hsaved.
    apply Z.leb_gt in Hsaved. split; [lia|]. intros T' evs' [=].
Qed.

Lemma date_key_record (r : record) :
  date_key (record_json r) = parse_moscow_time (date r).
Proof. reflexivity. Qed.

Lemma item_dates_dated (m : message) (d : Z) (l : list (option message)) :
  msg_date m = Some d -> item_dates (Some m :: l) = d :: item_dates l.
Proof. intros Hd. unfold item_dates. simpl. by rewrite Hd. Qed.

Lemma item_dates_undated (m : message) (l : list (option message)) :
  msg_date m = None -> item_dates (Some m :: l) = item_dates l.
Proof. intros Hd. unfold item_dates. simpl. by rewrite Hd. Qed.

(** The accumulator stays in ascending order when the iterator yields
    its dated items newest first. *)
Lemma paginate_ascending (mode : pystr) (ts : Z) (last_date limit : option Z)
    (remaining : list (option message)) :
  StronglySorted Z.ge (item_dates remaining) ->
  (forall m d, Some m ∈ remaining -> msg_date m = Some d ->
               parse_moscow_time (format_moscow_time d) = Some d) ->
  forall (acc : list record) (count message_count : Z),
    Sorted date_le (record_json <$> acc) ->
    (forall r d', r ∈ acc -> d' ∈ item_dates remaining ->
                  exists t, parse_moscow_time (date r) = Some t /\ (d' <= t)%Z) ->
    Sorted date_le
      (record_json <$> messages_data
                         (paginate mode ts last_date limit remaining acc
                                   count message_count)).
Proof.
  induction remaining as [|message remaining IH];
    intros Hdesc Hround acc count n Hacc Hnewer; [exact Hacc|].
  assert (forall m d, Some m ∈ remaining -> msg_date m = Some d ->
                      parse_moscow_time (format_moscow_time d) = Some d) as Hround'.
  { intros m d Hin. apply Hround. by right. }
  cbn [paginate]. destruct (check_request_limit count) as [count1 evs1].
  cbn [messages_data].
  destruct message as [m|]; [|by apply IH].
  destruct (msg_date m) as [d|] eqn:Hd.
  2:{ rewrite (item_dates_undated m remaining Hd) in Hdesc, Hnewer.
      by apply IH. }
  rewrite (item_dates_dated m d remaining Hd) in Hdesc, Hnewer.
  apply StronglySorted_inv in Hdesc as [Hdesc Hfirst].
  assert (forall r d', r ∈ acc -> d' ∈ item_dates remaining ->
                       exists t, parse_moscow_time (date r) = Some t /\ (d' <= t)%Z)
    as Hnewer'.
  { intros r d' Hr Hd'. apply Hnewer; [exact Hr | by right]. }
  destruct (stop_before mode ts last_date d); [exact Hacc|].
  destruct (msg_sender m) as [s|]; [|by apply IH].
  set (r0 := message_record d s m).
  assert (parse_moscow_time (date r0) = Some d) as Hr0.
  { apply (Hround m d); [by left | exact Hd]. }
  assert (Sorted date_le
            (record_json <$> (if worth_keeping r0 then r0 :: acc else acc))
          /\ forall r d', r ∈ (if worth_keeping r0 then r0 :: acc else acc) ->
                          d' ∈ item_dates remaining ->
                          exists t, parse_moscow_time (date r) = Some t /\ (d' <= t)%Z)
    as [Hacc' Hnewer''].
  { destruct (worth_keeping r0); [|by split]. split.
    - rewrite fmap_cons. constructor; [exact Hacc|].
      destruct acc as [|r1 acc]; [constructor|].
      rewrite fmap_cons. constructor.
      destruct (Hnewer r1 d ltac:(by left) ltac:(by left)) as (t1 & Ht1 & Hle).
      exists d, t1. by rewrite !date_key_record.
    - intros r d' [->|Hr]%elem_of_cons Hd'; [|by apply Hnewer'].
      exists d. split; [exact Hr0|].
      pose proof (proj1 (Forall_forall _ _) Hfirst d' Hd'). lia. }
  destruct (limit_reached limit (n + 1)); [exact Hacc'|].
  by apply IH.
Qed.

(** X12: when every stream of the source yields its dated messages newest
    first and their dates survive formatting and parsing, the list a call
    returns is in ascending order of timestamp, oldest record first. *)
Theorem returned_records_ascending
    (files : fs) (chat_title : option pystr) (category mode : pystr)
    (src : source) :
  Forall (fun s => StronglySorted Z.ge (item_dates (items s))) (source_streams src) ->
  (forall m d, Some m ∈ source_items src -> msg_date m = Some d ->
               parse_moscow_time (format_moscow_time d) = Some d) ->
  forall (limit : option Z) (count : Z),
    Sorted date_le
      (record_json <$> returned_records
                         (parse_messages ROOT_MESSAGES_DIR files src chat_title
                                         category mode limit count).1.1).
Proof.
  induction src as [s normally | s seconds next IH];
    intros Hdesc Hround limit count; cbn [parse_messages source_stream];
    (destruct (determine_mode _ _ _ _ _) as [[[last_date limit'] evs0]|msg];
     [|constructor]);
    (assert (Sorted date_le
               (record_json <$> messages_data
                  (paginate mode (today_start s) last_date limit' (items s)
                            [] count 0))) as Hdata;
     [apply paginate_ascending;
      [by inversion Hdesc
      |intros m d Hin; apply Hround; cbn [source_items];
       try (apply elem_of_app; left); exact Hin
      |constructor
      |by intros r d' ?%elem_of_nil]|]).
  - destruct (broke _); [exact Hdata|]. by destruct normally.
  - destruct (broke _); [exact Hdata|].
    specialize (IH ltac:(by inversion Hdesc)
                   ltac:(intros m d Hin; apply Hround; cbn [source_items];
                         apply elem_of_app; by right)
                   limit'
                   (request_count (paginate mode (today_start s) last_date limit'
                                            (items s) [] count 0))).
    destruct (parse_messages _ _ next _ _ _ _ _) as [[res count'] evs']. exact IH.
Qed.

End FetchOrder.

Lemma returned_records_ascending_witness :
  Sorted (date_le (H := FixedMoscow.time_lib))
    (record_json <$> returned_records
                       (FetchScenario.fetch ∅ FetchScenario.flooded mode_all None).1.1).
Proof.
  apply (returned_records_ascending (H := FixedMoscow.time_lib) Scenario.root ∅
           (Some Scenario.title) Scenario.category mode_all FetchScenario.flooded).
  - repeat constructor; vm_compute; discriminate.
  - intros m d Hin Hd. cbn in Hin.
    repeat (apply elem_of_cons in Hin as [Hin|Hin]);
      try (injection Hin as ->; injection Hd as <-; vm_compute; reflexivity).
    by apply elem_of_nil in Hin.
Defined.

(** ** X13: when [get_first_message_date] returns *)

Section FirstDateReturns.
Context `{TimeLib}.
Variable json_loads : pystr -> option json.

Lemma scan_lines_skips (file_path : pystr) (fuel : nat) (line : pystr)
    (unread : list pystr) :
  leaves_loop json_loads line = false ->
  scan_lines json_loads file_path (S fuel) (line :: unread)
  = scan_lines json_loads file_path fuel unread.
Proof.
  unfold leaves_loop. intros Hskip. cbn [scan_lines hd tl].
  destruct (startswith (py "{") line); [|reflexivity].
  cbn [andb] in Hskip.
  destruct (json_loads _) as [[ | | | | |members]|]; try discriminate; try reflexivity.
  by destruct (dict_get (py "date") members).
Qed.

Lemma scan_lines_leaves (file_path : pystr) (fuel : nat) (line : pystr)
    (unread : list pystr) :
  leaves_loop json_loads line = true ->
  exists r, scan_lines json_loads file_path (S fuel) (line :: unread) = Some r.
Proof.
  unfold leaves_loop. intros Hleave. cbn [scan_lines hd tl].
  apply andb_true_iff in Hleave as [-> Hleave].
  destruct (json_loads _) as [[ | | | | |members]|]; try discriminate; eauto.
  destruct (dict_get (py "date") members) as [[ | | |s| | ]|]; try discriminate; eauto.
  destruct (parse_moscow_time s); eauto.
Qed.

Lemma scan_lines_never (file_path : pystr) (fuel : nat) (unread : list pystr) :
  Forall (fun line => leaves_loop json_loads line = false) unread ->
  scan_lines json_loads file_path fuel unread = None.
Proof.
  revert unread. induction fuel as [|fuel IH]; intros unread Hno; [reflexivity|].
  destruct unread as [|line unread].
  - change (scan_lines json_loads file_path (S fuel) [])
      with (scan_lines json_loads file_path fuel []).
    by apply IH.
  - inversion Hno as [|? ? Hline Hrest]; subst.
    rewrite scan_lines_skips by exact Hline. by apply IH.
Qed.

Lemma scan_lines_finds (file_path : pystr) (unread : list pystr) :
  Exists (fun line => leaves_loop json_loads line = true) unread ->
  exists r, scan_lines json_loads file_path (length unread) unread = Some r.
Proof.
  induction unread as [|line unread IH]; intros Hex; [by inversion Hex|].
  destruct (leaves_loop json_loads line) eqn:Hline.
  - by apply scan_lines_leaves.
  - cbn [length]. rewrite scan_lines_skips by exact Hline.
    apply IH. inversion Hex; subst; [congruence | assumption].
Qed.

Lemma scan_lines_more_fuel (file_path : pystr) (fuel : nat) :
  forall (unread : list pystr) r,
    scan_lines json_loads file_path fuel unread = Some r ->
    scan_lines json_loads file_path (S fuel) unread = Some r.
Proof.
  induction fuel as [|fuel IH]; intros unread r Hr; [discriminate|].
  cbn [scan_lines] in Hr |- *.
  destruct (startswith (py "{") (hd [] unread)); [|by apply IH].
  destruct (json_loads _) as [[ | | | | |members]|]; try exact Hr; [|by apply IH].
  destruct (dict_get (py "date") members) as [v|]; [exact Hr | by apply IH].
Qed.

(** X13: on a text file whose first line starts with an opening bracket,
    [get_first_message_date] returns if and only if one of the following
    lines starts with an opening brace and is decoded by [json.loads] to
    something other than an object without a date; as many iterations as
    the file has lines are then enough.  Otherwise the loop runs for ever. *)
Theorem first_date_returns_iff (files : fs) (file_path : pystr)
    (lines : list pystr) (value : option json) :
  files !! file_path = Some (Text lines value) ->
  startswith (py "[") (hd [] lines) = true ->
  ((exists fuel r, get_first_message_date json_loads fuel files file_path = Some r)
   <-> Exists (fun line => leaves_loop json_loads line = true) (tl lines))
  /\ (Exists (fun line => leaves_loop json_loads line = true) (tl lines) ->
      exists r, get_first_message_date json_loads (length lines) files file_path
                = Some r).
Proof.
  intros Hfile Hfirst. unfold get_first_message_date. rewrite Hfile, Hfirst.
  assert (Exists (fun line => leaves_loop json_loads line = true) (tl lines) ->
          exists r, scan_lines json_loads file_path (length lines) (tl lines) = Some r)
    as Hfinds.
  { intros Hex. destruct lines as [|first rest]; [by inversion Hex|].
    cbn [tl length] in *.
    destruct (scan_lines_finds file_path rest Hex) as [r Hr].
    exists r. by apply scan_lines_more_fuel. }
  split; [split|exact Hfinds].
  - intros (fuel & r & Hr).
    destruct (decide (Exists (fun line => leaves_loop json_loads line = true)
                             (tl lines))) as [Hex|Hno]; [exact Hex|].
    rewrite scan_lines_never in Hr; [discriminate|].
    apply Forall_forall. intros line Hin.
    destruct (leaves_loop json_loads line) eqn:Hline; [|reflexivity].
    exfalso. apply Hno. apply Exists_exists. by exists line.
  - intros Hex. destruct (Hfinds Hex) as [r Hr]. by exists (length lines), r.
Qed.

End FirstDateReturns.

Lemma first_date_returns_iff_witness :
  exists r,
    get_first_message_date (H := FixedMoscow.time_lib) Scenario.loads_compact 3
      Scenario.compact_archive Scenario.archive_path
    = Some r.
Proof.
  apply (proj2 (first_date_returns_iff (H := FixedMoscow.time_lib)
                  Scenario.loads_compact Scenario.compact_archive
                  Scenario.archive_path
                  [py "["; Scenario.compact_record ++ py ","; py "]"]
                  (Some (JArr [JObj [(py "date",
                                      JStr (date (Scenario.record_at Scenario.at_1000
                                                                     "first")))]]))
                  ltac:(vm_compute; reflexivity) eq_refl)).
  apply Exists_cons_hd. vm_compute. reflexivity.
Defined.

(** ** The orchestrator *)

Section OrchestratorFacts.
Context `{TimeLib}.
Variable ROOT_MESSAGES_DIR : pystr.

(** One chat: the counters move by zero or one, the count of updated files
    only with the count of processed chats, and the only file that can
    change is the one at the save path of the chat. *)
Lemma process_chat_step (category mode : pystr) (limit : option Z)
    (c : chat) (st : batch_state) :
  let st' := process_chat ROOT_MESSAGES_DIR category mode limit c st in
  (0 <= updated_files st' - updated_files st
   <= processed_chats st' - processed_chats st)%Z
  /\ (processed_chats st' - processed_chats st <= 1)%Z
  /\ (forall q, chat_save_path ROOT_MESSAGES_DIR category c <> Some q ->
                b_files st' !! q = b_files st !! q).
Proof.
  unfold process_chat, chat_save_path, log.
  destruct (resolve c) as [[title|]| |]; cbn [updated_files processed_chats b_files];
    try (split; [lia | split; [lia | done]]).
  destruct (parse_messages _ _ _ _ _ _ _ _) as [[[messages|msg] count] evs];
    cbn [updated_files processed_chats b_files]; [|split; [lia | split; [lia | done]]].
  case_bool_decide; cbn [updated_files processed_chats b_files];
    [split; [lia | split; [lia | done]]|].
  destruct (save_messages _ _ _ _) as [[files' evs_save]|] eqn:Hsave;
    cbn [updated_files processed_chats b_files]; [|split; [lia | split; [lia | done]]].
  split; [lia|]. split; [lia|].
  intros q Hq. apply save_messages_writes_array in Hsave as [written ->].
  apply lookup_insert_ne. congruence.
Qed.

Lemma process_chats_counters (category mode : pystr) (limit : option Z)
    (chats : list chat) :
  forall st : batch_state,
    let st' := process_chats ROOT_MESSAGES_DIR category mode limit chats st in
    (0 <= updated_files st' - updated_files st
     <= processed_chats st' - processed_chats st)%Z
    /\ (processed_chats st' - processed_chats st <= Z.of_nat (length chats))%Z.
Proof.
  unfold process_chats.
  induction chats as [|c chats IH]; intros st; cbn [foldl length]; [lia|].
  destruct (process_chat_step category mode limit c st) as (Hcount & Hone & _).
  destruct (IH (process_chat ROOT_MESSAGES_DIR category mode limit c st))
    as (Hcounts & Hmany).
  cbv zeta in *. lia.
Qed.

(** X14: over the chat references of a list file the count of processed
    chats grows by at most one for each reference and the count of updated
    files never by more than the count of processed chats; and no file
    changes but those at the save paths of the chats. *)
Theorem process_chats_counts_and_writes (category mode : pystr) (limit : option Z)
    (chats : list chat) :
  forall st : batch_state,
    let st' := process_chats ROOT_MESSAGES_DIR category mode limit chats st in
    (0 <= updated_files st' - updated_files st
     <= processed_chats st' - processed_chats st)%Z
    /\ (processed_chats st' - processed_chats st <= Z.of_nat (length chats))%Z
    /\ (forall q,
          (forall c, c ∈ chats ->
                     chat_save_path ROOT_MESSAGES_DIR category c <> Some q) ->
          b_files st' !! q = b_files st !! q).
Proof.
  unfold process_chats.
  induction chats as [|c chats IH]; intros st; cbn [foldl length].
  - split; [lia | split; [lia | done]].
  - destruct (process_chat_step category mode limit c st) as (Hcount & Hone & Hframe).
    destruct (IH (process_chat ROOT_MESSAGES_DIR category mode limit c st))
      as (Hcounts & Hmany & Hframes).
    cbv zeta in *. split; [lia|]. split; [lia|].
    intros q Hq. rewrite Hframes by (intros c' Hc'; apply Hq; by right).
    apply Hframe. apply Hq. by left.
Qed.

(** X15: [process_chat_file] returns the two counters of the state it
    leaves; the count of updated files is at most the count of processed
    chats, which is at most the number of lines of the list file that are
    not blank, and both are zero when the list file cannot be read. *)
Theorem process_chat_file_counts (client : pystr -> resolution * source)
    (files : fs) (count : Z) (file_path mode : pystr) (limit : option Z) :
  let '(processed, updated, st) :=
    process_chat_file ROOT_MESSAGES_DIR client files count file_path mode limit in
  processed = processed_chats st /\ updated = updated_files st
  /\ (0 <= updated <= processed)%Z
  /\ (processed <= Z.of_nat (length (chat_links_of (files !! file_path))))%Z.
Proof.
  unfold process_chat_file, chat_links_of.
  destruct (files !! file_path) as [[lines value|]|];
    try (cbn; repeat split; lia).
  set (chats := (fun l => _) <$> _).
  set (st0 := {| b_files := files; b_request_count := count; processed_chats := 0;
                 updated_files := 0; b_events := _ |}).
  destruct (process_chats_counters
              (splitext_root (basename file_path)) mode limit chats st0)
    as (Hcounts & Hmany).
  cbv zeta in Hcounts, Hmany.
  cbn [processed_chats updated_files st0] in Hcounts, Hmany.
  unfold log. cbn [processed_chats updated_files].
  subst chats. rewrite length_fmap in Hmany.
  repeat split; lia.
Qed.

End OrchestratorFacts.

Lemma process_chats_counts_and_writes_witness :
  b_files (process_chats (H := FixedMoscow.time_lib) Scenario.root Scenario.category
             mode_last_saved None [FetchScenario.daily_news] FetchScenario.fresh_batch)
    !! py "data/news.txt"
  = b_files FetchScenario.fresh_batch !! py "data/news.txt".
Proof.
  apply (proj2 (proj2 (process_chats_counts_and_writes (H := FixedMoscow.time_lib)
                         Scenario.root Scenario.category mode_last_saved None
                         [FetchScenario.daily_news] FetchScenario.fresh_batch))).
  intros c Hc. apply list_elem_of_singleton in Hc as ->.
  vm_compute. discriminate.
Defined.

(** ** X16: the merge job, file by file *)

(** X16: the entries of an archive file that [merge_json_files] takes
    stand in the snapshot as they are, in their order, between the entries
    of the files walked before and those of the files walked after: nothing
    is sorted or dropped.  The snapshot is written under the name chosen,
    and no other file changes. *)
Theorem merge_keeps_walk_order
    (pre post : list walked) (w : walked) (lines : list pystr) (data : list json)
    (output_dir current_date current_time : pystr) (files : fs) :
  endswith (py ".json") (w_name w) = true ->
  w_content w = Text lines (Some (JArr data)) ->
  let files' :=
    (merge_json_files (pre ++ w :: post) output_dir current_date current_time files).1 in
  let output_path := snapshot_path output_dir current_date current_time files in
  files' !! output_path
  = Some (write_json (JArr ((collect_entries pre).1 ++ data
                            ++ (collect_entries post).1)))
  /\ (forall q, q <> output_path -> files' !! q = files !! q).
Proof.
  intros Hname Hcontent files' output_path. subst files' output_path.
  unfold merge_json_files.
  destruct (collect_entries (pre ++ w :: post)) as [entries evs] eqn:Hcollect.
  cbn [fst].
  assert (entries = (collect_entries pre).1 ++ data ++ (collect_entries post).1)
    as ->.
  { change entries with ((entries, evs).1). rewrite <- Hcollect.
    rewrite collect_entries_app. cbn [fst collect_entries].
    destruct (collect_entries post) as [es evs']. by rewrite Hname, Hcontent. }
  split; [apply lookup_insert_eq|].
  intros q Hq. by apply lookup_insert_ne.
Qed.

Lemma merge_keeps_walk_order_witness :
  (merge_json_files
     ([MergeScenario.broken_file] ++ MergeScenario.archive_file
                                     :: [MergeScenario.archive_file])
     MergeScenario.output_dir MergeScenario.today MergeScenario.now ∅).1
    !! snapshot_path MergeScenario.output_dir MergeScenario.today MergeScenario.now ∅
  = Some (write_json (JArr (MergeScenario.two_records ++ MergeScenario.two_records))).
Proof.
  apply (proj1 (merge_keeps_walk_order [MergeScenario.broken_file]
                  [MergeScenario.archive_file] MergeScenario.archive_file
                  (dump_lines (JArr MergeScenario.two_records))
                  MergeScenario.two_records
                  MergeScenario.output_dir MergeScenario.today MergeScenario.now ∅
                  eq_refl eq_refl)).
Defined.

(** ** X17: running the same fetch again *)

Section Rerun.
Context `{TimeLib}.
Variable ROOT_MESSAGES_DIR : pystr.





End Rerun.


(** ** X18: a chat processed in the mode [all] *)

Section OverwriteAll.
Context `{TimeLib}.
Variable ROOT_MESSAGES_DIR : pystr.



End OverwriteAll.


(** ** X19: a whole run *)

Lemma startswith_app (prefix s : pystr) : startswith prefix (prefix ++ s) = true.
Proof.
  induction prefix as [|a prefix IH]; [reflexivity|].
  cbn [app startswith]. by rewrite N.eqb_refl, IH.
Qed.

Lemma endswith_app (suffix s : pystr) : endswith suffix (s ++ suffix) = true.
Proof. unfold endswith. rewrite rev_app_distr. apply startswith_app. Qed.

(** Every archive path ends in [.json]. *)
Lemma get_chat_file_path_json (root category chat_title : pystr) :
  endswith (py ".json") (get_chat_file_path root category chat_title) = true.
Proof.
  unfold get_chat_file_path. rewrite !app_assoc. apply endswith_app.
Qed.

Lemma txt_is_not_json (p : pystr) :
  endswith (py ".txt") p = true -> endswith (py ".json") p = false.
Proof.
  unfold endswith.
  change (rev (py ".txt")) with [116; 120; 116; 46]%N.
  change (rev (py ".json")) with [110; 111; 115; 106; 46]%N.
  destruct (rev p) as [|a l]; cbn [startswith]; [discriminate|].
  intros Ha. apply andb_true_iff in Ha as [Ha _].
  apply N.eqb_eq in Ha as <-. reflexivity.
Qed.

Lemma listed_chats_ext (files1 files2 : fs) (input_files : list pystr) :
  (forall p, p ∈ input_files -> files1 !! p = files2 !! p) ->
  listed_chats files1 input_files = listed_chats files2 input_files.
Proof.
  induction input_files as [|p l IH]; intros Hsame; [reflexivity|].
  cbn [listed_chats foldr]. fold (listed_chats files1 l) (listed_chats files2 l).
  rewrite (Hsame p) by (by left). rewrite IH; [reflexivity|].
  intros q Hq. apply Hsame. by right.
Qed.

Section RunFacts.
Context `{TimeLib}.
Variable ROOT_MESSAGES_DIR : pystr.

(** The loop over the chats of a list file changes archives only. *)
Lemma process_chats_spares (category mode : pystr) (limit : option Z)
    (chats : list chat) (q : pystr) :
  endswith (py ".json") q = false ->
  forall st : batch_state,
    b_files (process_chats ROOT_MESSAGES_DIR category mode limit chats st) !! q
    = b_files st !! q.
Proof.
  intros Hq. unfold process_chats.
  induction chats as [|c chats IH]; intros st; cbn [foldl]; [reflexivity|].
  rewrite IH.
  apply (process_chat_step ROOT_MESSAGES_DIR category mode limit c st).
  unfold chat_save_path. destruct (resolve c) as [[title|]| |]; try done.
  intros [= <-]. by rewrite get_chat_file_path_json in Hq.
Qed.

Lemma process_chat_file_step (client : pystr -> resolution * source)
    (files : fs) (count : Z) (file_path mode : pystr) (limit : option Z) :
  let r := process_chat_file ROOT_MESSAGES_DIR client files count file_path mode limit in
  (0 <= r.1.2 <= r.1.1)%Z
  /\ (r.1.1 <= Z.of_nat (length (chat_links_of (files !! file_path))))%Z
  /\ (forall q, endswith (py ".json") q = false -> b_files r.2 !! q = files !! q).
Proof.
  unfold process_chat_file, chat_links_of.
  destruct (files !! file_path) as [[lines value|]|];
    try (cbn; repeat split; (lia || done)).
  set (chats := (fun l => _) <$> _).
  set (st0 := {| b_files := files; b_request_count := count; processed_chats := 0;
                 updated_files := 0; b_events := _ |}).
  destruct (process_chats_counters ROOT_MESSAGES_DIR
              (splitext_root (basename file_path)) mode limit chats st0)
    as (Hcounts & Hmany).
  cbv zeta in Hcounts, Hmany.
  cbn [processed_chats updated_files st0] in Hcounts, Hmany.
  unfold log. cbn [fst snd processed_chats updated_files b_files].
  subst chats. rewrite length_fmap in Hmany.
  split; [lia|]. split; [lia|].
  intros q Hq. by rewrite process_chats_spares.
Qed.

Lemma process_files_step (client : pystr -> resolution * source)
    (MODE : pystr) (LIMIT : option Z) (input_files : list pystr) :
  Forall (fun p => endswith (py ".txt") p = true) input_files ->
  forall rs0 : run_state,
    let rs := foldl (process_file ROOT_MESSAGES_DIR client MODE LIMIT) rs0 input_files in
    (forall q, endswith (py ".json") q = false -> r_files rs !! q = r_files rs0 !! q)
    /\ (0 <= total_updated rs - total_updated rs0
        <= total_processed rs - total_processed rs0)%Z
    /\ (total_processed rs - total_processed rs0
        <= listed_chats (r_files rs0) input_files)%Z.
Proof.
  induction 1 as [|p l Hp Hl IH]; intros rs0; cbn [foldl].
  - cbn. split; [done|]. lia.
  - destruct (IH (process_file ROOT_MESSAGES_DIR client MODE LIMIT rs0 p))
      as (Hframe & Hcounts & Hmany).
    cbv zeta in *.
    pose proof (process_chat_file_step client (r_files rs0) (r_request_count rs0)
                  p MODE LIMIT) as (Hone & Hlisted & Hspare).
    cbv zeta in Hone, Hlisted, Hspare.
    set (rs1 := process_file ROOT_MESSAGES_DIR client MODE LIMIT rs0 p) in *.
    assert (r_files rs1
            = b_files (process_chat_file ROOT_MESSAGES_DIR client (r_files rs0)
                         (r_request_count rs0) p MODE LIMIT).2
            /\ total_processed rs1
               = (total_processed rs0
                  + (process_chat_file ROOT_MESSAGES_DIR client (r_files rs0)
                       (r_request_count rs0) p MODE LIMIT).1.1)%Z
            /\ total_updated rs1
               = (total_updated rs0
                  + (process_chat_file ROOT_MESSAGES_DIR client (r_files rs0)
                       (r_request_count rs0) p MODE LIMIT).1.2)%Z)
      as (Hfiles & Hprocessed & Hupdated).
    { subst rs1. unfold process_file.
      by destruct (process_chat_file _ _ _ _ _ _ _) as [[processed updated] st]. }
    rewrite (listed_chats_ext (r_files rs1) (r_files rs0) l) in Hmany.
    2:{ intros q Hq. rewrite Hfiles. apply Hspare, txt_is_not_json.
        by apply (proj1 (Forall_forall _ _) Hl). }
    cbn [listed_chats foldr]. fold (listed_chats (r_files rs0) l).
    split; [|lia].
    intros q Hq. rewrite Hframe by done. rewrite Hfiles. by apply Hspare.
Qed.

(** X19: a run that finds its session file ends normally, and over list
    files named [*.txt] it changes no file but archives, whose names end in
    [.json]: the list files and the session file stay as they are.  The
    total of updated files is at most the total of processed chats, which
    is at most the number of chat references the list files held when the
    run began. *)
Theorem run_counts_and_spares (client : pystr -> resolution * source)
    (input_files : list pystr) (files : fs) (MODE : pystr) (LIMIT : option Z) :
  is_Some (files !! session_file) ->
  Forall (fun p => endswith (py ".txt") p = true) input_files ->
  exists rs,
    get_messages_from_chats ROOT_MESSAGES_DIR client input_files files MODE LIMIT
    = Some rs
    /\ (forall q, endswith (py ".json") q = false -> r_files rs !! q = files !! q)
    /\ (0 <= total_updated rs <= total_processed rs)%Z
    /\ (total_processed rs <= listed_chats files input_files)%Z.
Proof.
  intros Hsession Htxt. unfold get_messages_from_chats.
  rewrite bool_decide_eq_true_2 by done.
  destruct input_files as [|p l].
  - eexists. split; [reflexivity|]. cbn. split; [done|]. lia.
  - eexists. split; [reflexivity|].
    cbn [r_files total_updated total_processed].
    destruct (process_files_step client MODE LIMIT (p :: l) Htxt
                {| r_files := files; r_request_count := 0; total_processed := 0;
                   total_updated := 0; r_events := [] |})
      as (Hframe & Hcounts & Hmany).
    cbv zeta in Hframe, Hcounts, Hmany.
    cbn [r_files total_updated total_processed] in Hframe, Hcounts, Hmany.
    split; [exact Hframe|]. lia.
Qed.

End RunFacts.

Lemma run_counts_and_spares_witness :
  exists rs,
    get_messages_from_chats (H := FixedMoscow.time_lib) Scenario.root
      RunScenario.client [RunScenario.list_file] RunScenario.files
      mode_last_saved None
    = Some rs
    /\ (forall q, endswith (py ".json") q = false ->
                  r_files rs !! q = RunScenario.files !! q)
    /\ (0 <= total_updated rs <= total_processed rs)%Z
    /\ (total_processed rs
        <= listed_chats RunScenario.files [RunScenario.list_file])%Z.
Proof.
  apply (run_counts_and_spares (H := FixedMoscow.time_lib) Scenario.root
           RunScenario.client [RunScenario.list_file] RunScenario.files
           mode_last_saved None).
  - exists Binary. vm_compute. reflexivity.
  - repeat constructor.
Defined.
